(** * Repository synchronisation layer of the package-build pipeline

    A shallow embedding of [lib/repository.py] (the git working copy, its
    factory and its remote handling) and of [lib/mock.py] (the chroot
    initialiser), followed by the properties the design document states
    about them.

    Python objects that are mutated in place (the repository behind a
    [GitRepository] handle, the directory tree the factory looks at, the
    lock file of the chroot initialiser) are explicit states threaded
    through a small state-and-exception monad.  A raised exception keeps
    the state reached so far, as in Python.  Calls to [LOG] change neither
    control flow nor any of these states and are left out. *)

From Stdlib Require Import String Ascii ZArith List Bool Lia.
From stdpp Require Import base option list strings gmap pretty.

Open Scope string_scope.
Open Scope Z_scope.

(** ** Exceptions *)

(** Modelled from the spec: [lib/exception.py] and [lib/utils.py] are
    not among the sources at hand.  The first declares the
    [RepositoryError] that [repository.py] raises; the taxonomy of the
    design document has [RepositoryFormatError] next to it; the second
    runs external commands, whose failure the design document calls a
    generic execution error, here [ExecutionError].  The other
    constructors are the exception classes the two modules name or meet:
    [InvalidGitRepositoryError], [NoSuchPathError] and [GitCommandError]
    are [git.exc]'s, [BadName] is [gitdb.exc]'s, [ValueError] and
    [IndexError] are Python's own, [PushError] is declared in
    [repository.py]. *)
Inductive exn : Type :=
  | InvalidGitRepositoryError (path : string)
  | NoSuchPathError (path : string)
  | GitCommandError
  | BadName
  | ValueError
  | IndexError
  | ExecutionError (cmd : string)
  | PushError (message : string)
  | RepositoryError (message : string)
  | RepositoryFormatError (message : string).

Inductive result (A : Type) : Type :=
  | Ok (a : A)
  | Raise (e : exn).
Arguments Ok {A} a.
Arguments Raise {A} e.


(** ** A state and exception monad *)

Module Py.

Definition M (S A : Type) : Type := S -> S * result A.

Definition ret {S A} (a : A) : M S A := fun s => (s, Ok a).

Definition raise {S A} (e : exn) : M S A := fun s => (s, Raise e).

Definition bind {S A B} (m : M S A) (k : A -> M S B) : M S B :=
  fun s =>
    match m s with
    | (s', Ok a) => k a s'
    | (s', Raise e) => (s', Raise e)
    end.

Definition gets {S A} (f : S -> A) : M S A := fun s => (s, Ok (f s)).

Definition modify {S} (f : S -> S) : M S unit := fun s => (f s, Ok tt).

(** [try: m except handler]: the handler answers [None] for an exception
    class the [except] clauses do not list, which then propagates. *)
Definition try_except {S A} (m : M S A) (handler : exn -> option (M S A))
  : M S A :=
  fun s =>
    match m s with
    | (s', Ok a) => (s', Ok a)
    | (s', Raise e) =>
        match handler e with
        | Some h => h s'
        | None => (s', Raise e)
        end
    end.

(** [for x in xs: body x] *)
Fixpoint for_each {S A} (xs : list A) (body : A -> M S unit) : M S unit :=
  match xs with
  | [] => ret tt
  | x :: xs' => bind (body x) (fun _ => for_each xs' body)
  end.

End Py.

Declare Scope py_scope.
Delimit Scope py_scope with py.
Notation "x <- m ;; k" := (Py.bind m (fun x => k))
  (at level 100, m at next level, k at level 200, right associativity)
  : py_scope.
Notation "m ;;; k" := (Py.bind m (fun _ => k))
  (at level 100, k at level 200, right associativity) : py_scope.

(** ** [os.path] on POSIX *)

Module os_path.

Definition startswith_sep (s : string) : bool :=
  match s with
  | String "/" _ => true
  | _ => false
  end.

Fixpoint endswith_sep (s : string) : bool :=
  match s with
  | EmptyString => false
  | String c EmptyString => Ascii.eqb c "/"
  | String _ s' => endswith_sep s'
  end.

Definition is_empty (s : string) : bool :=
  match s with
  | EmptyString => true
  | _ => false
  end.

(** [posixpath.join(a, b)]: an absolute [b] discards [a]; no separator
    is added after an empty [a] or one that already ends in one. *)
Definition join (a b : string) : string :=
  if startswith_sep b then b
  else if is_empty a || endswith_sep a then a ++ b
  else a ++ "/" ++ b.

(** [s.rfind(c)], [-1] when [c] does not occur. *)
Fixpoint rfind (c : ascii) (s : string) : Z :=
  match s with
  | EmptyString => -1
  | String a s' =>
      let i := rfind c s' in
      if 0 <=? i then i + 1
      else if Ascii.eqb a c then 0 else -1
  end.

Definition slice_from (i : Z) (s : string) : string :=
  String.substring (Z.to_nat i) (String.length s - Z.to_nat i) s.

Definition slice_to (i : Z) (s : string) : string :=
  String.substring 0 (Z.to_nat i) s.

Definition basename (p : string) : string :=
  slice_from (rfind "/" p + 1) p.

Fixpoint all_dots (s : string) : bool :=
  match s with
  | EmptyString => true
  | String c s' => Ascii.eqb c "." && all_dots s'
  end.

(** [posixpath.splitext]: the extension starts at the last dot of the
    last component, leading dots of that component not counted. *)
Definition splitext (p : string) : string * string :=
  let sepIndex := rfind "/" p in
  let dotIndex := rfind "." p in
  if (sepIndex <? dotIndex)
     && negb (all_dots (String.substring (Z.to_nat (sepIndex + 1))
                          (Z.to_nat (dotIndex - (sepIndex + 1))) p))
  then (slice_to dotIndex p, slice_from dotIndex p)
  else (p, "").

End os_path.

(** ** Data model of [repository.py] *)

(** A commit is an opaque identifier (its hexadecimal name). *)
Definition Commit : Type := string.

Record Remote : Type := mkRemote {
  remote_name : string;
  remote_url : string
}.

Record Submodule : Type := mkSubmodule {
  submodule_name : string;
  submodule_url : string;
  submodule_path : string;
  submodule_commit : Commit
}.

(** What [remote.push] reports for one pushed reference: [flags] is the
    bit set of [git.PushInfo], [remote_ref] the name of the remote
    reference. *)
Record PushInfo : Type := mkPushInfo {
  flags : Z;
  remote_ref : string;
  summary : string
}.

(** [git.PushInfo.ERROR]: the flags are [1 << x for x in range(11)], in the
    order NEW_TAG, NEW_HEAD, NO_MATCH, REJECTED, REMOTE_REJECTED,
    REMOTE_FAILURE, DELETED, FORCED_UPDATE, FAST_FORWARD, UP_TO_DATE,
    ERROR. *)
Definition PushInfo_ERROR : Z := Z.shiftl 1 10.

(** The repository behind a [GitRepository] handle.  [remotes] is in the
    order [self.remotes] enumerates; [refs] holds every name
    [self.commit] resolves; [head] is the commit [HEAD] points at;
    [index] and [working_tree] name the commit whose tree they hold;
    [submodule_heads] maps the path of an initialised submodule to the
    commit checked out there. *)
Record Repo : Type := mkRepo {
  working_tree_dir : string;
  remotes : list Remote;
  refs : gmap string Commit;
  head : Commit;
  index : Commit;
  working_tree : Commit;
  submodule_heads : gmap string Commit
}.

Definition set_remotes (rs : list Remote) (r : Repo) : Repo :=
  {| working_tree_dir := working_tree_dir r; remotes := rs;
     refs := refs r; head := head r; index := index r;
     working_tree := working_tree r; submodule_heads := submodule_heads r |}.

Definition set_refs (m : gmap string Commit) (r : Repo) : Repo :=
  {| working_tree_dir := working_tree_dir r; remotes := remotes r;
     refs := m; head := head r; index := index r;
     working_tree := working_tree r; submodule_heads := submodule_heads r |}.

Definition set_head (c : Commit) (r : Repo) : Repo :=
  {| working_tree_dir := working_tree_dir r; remotes := remotes r;
     refs := refs r; head := c; index := index r;
     working_tree := working_tree r; submodule_heads := submodule_heads r |}.

Definition set_trees (c : Commit) (r : Repo) : Repo :=
  {| working_tree_dir := working_tree_dir r; remotes := remotes r;
     refs := refs r; head := head r; index := c;
     working_tree := c; submodule_heads := submodule_heads r |}.

Definition set_submodule_head (path : string) (c : Commit) (r : Repo) : Repo :=
  {| working_tree_dir := working_tree_dir r; remotes := remotes r;
     refs := refs r; head := head r; index := index r;
     working_tree := working_tree r;
     submodule_heads := <[path := c]> (submodule_heads r) |}.

(** A path of the file system is absent, holds something that is not a
    git repository, or holds one. *)
Inductive Dir : Type :=
  | NotARepository
  | GitDir (r : Repo).

(** What lies outside the program: the git engine's answers, the URL
    parser and the configuration.  A [None] answer of the engine is a
    [GitCommandError]. *)
Record Host : Type := mkHost {
  (** [remote.fetch(refspecs)]: the names that resolve afterwards *)
  fetch_result :
    Repo -> Remote -> option (list string) -> option (gmap string Commit);
  (** whether [git reset --hard] succeeds *)
  reset_ok : Repo -> bool;
  (** the submodules declared at a commit *)
  submodules_at : Commit -> list Submodule;
  (** whether [submodule.update(init=True)] succeeds *)
  submodule_update_ok : Repo -> Submodule -> bool;
  (** [remote.push(refspec=...)] *)
  push_result : Repo -> Remote -> string -> result (list PushInfo);
  (** [git clone url]: the names that resolve in the clone and the commit
      checked out *)
  clone_result : string -> option (gmap string Commit * Commit);
  (** [urlparse.urlparse(url).path] *)
  urlparse_path : string -> string;
  (** [CONF.get('http_proxy')] *)
  http_proxy : option string
}.

Definition MAIN_REMOTE_NAME : string := "origin".

(** Python truth of an optional string: [None] and [""] are false. *)
Definition truthy (o : option string) : bool :=
  match o with
  | Some s => negb (os_path.is_empty s)
  | None => false
  end.

(** ** [GitRepository] *)

Module GitRepository.
Section WithHost.

Variable host : Host.

Local Open Scope py_scope.
Import Py.

(** [any(remote.name == name for remote in self.remotes)] *)
Definition any_named (name : string) (rs : list Remote) : bool :=
  existsb (fun remote => String.eqb (remote_name remote) name) rs.

(** [self.remotes[name]]: the first remote of that name. *)
Definition remotes_getitem (name : string) : M Repo Remote :=
  fun r =>
    match find (fun remote => String.eqb (remote_name remote) name)
               (remotes r) with
    | Some remote => (r, Ok remote)
    | None => (r, Raise IndexError)
    end.

(** [self.remote(name)] raises [ValueError] for a remote that does not
    exist. *)
Definition remote (name : string) : M Repo Remote :=
  fun r =>
    match find (fun remote => String.eqb (remote_name remote) name)
               (remotes r) with
    | Some remote => (r, Ok remote)
    | None => (r, Raise ValueError)
    end.

(** [git remote rm name] drops the configuration section of that name. *)
Definition delete_remote (name : string) : M Repo unit :=
  modify (fun r =>
    set_remotes
      (List.filter (fun remote => negb (String.eqb (remote_name remote) name))
                   (remotes r)) r).

(** [git remote add name url] refuses a name that is taken and appends a
    section otherwise. *)
Definition create_remote (name url : string) : M Repo unit :=
  fun r =>
    if any_named name (remotes r) then (r, Raise GitCommandError)
    else (set_remotes (remotes r ++ [mkRemote name url]) r, Ok tt).

Definition force_create_remote (name url : string) : M Repo unit :=
  rs <- gets remotes ;;
  (if any_named name rs then
     previous <- remotes_getitem name ;;
     if negb (String.eqb (remote_url previous) url)
     then delete_remote name
     else ret tt
   else ret tt) ;;;
  rs <- gets remotes ;;
  if negb (any_named name rs) then create_remote name url else ret tt.

(** [self.commit(rev)] raises [BadName] for a name that does not
    resolve. *)
Definition commit (rev : string) : M Repo Commit :=
  fun r =>
    match refs r !! rev with
    | Some c => (r, Ok c)
    | None => (r, Raise BadName)
    end.

(** The [for ref_name in refs_names: ... else: raise] loop.  The loop
    variable shadows the parameter, so the message of the final
    [RepositoryError] is built from the candidate tried last; [current]
    is the value of [ref_name] when the loop is entered. *)
Fixpoint first_commit (refs_names : list string) (current : string)
  : M Repo Commit :=
  match refs_names with
  | [] =>
      raise (RepositoryError
               ("Reference '" ++ current ++ "' not found in repository"))
  | ref_name :: rest =>
      try_except (commit ref_name)
        (fun e => match e with
                  | BadName => Some (first_commit rest ref_name)
                  | _ => None
                  end)
  end.

(** [refs_names]: one [os.path.join(remote.name, ref_name)] per remote,
    then [ref_name] itself. *)
Definition candidates (rs : list Remote) (ref_name : string) : list string :=
  List.map (fun remote => os_path.join (remote_name remote) ref_name) rs
  ++ [ref_name].

Definition _get_reference (ref_name : string) : M Repo Commit :=
  rs <- gets remotes ;;
  first_commit (candidates rs ref_name) ref_name.

(** [main_remote.fetch(refspecs)] changes what resolves and nothing
    else. *)
Definition fetch (main_remote : Remote) (refspecs : option (list string))
  : M Repo unit :=
  fun r =>
    match fetch_result host r main_remote refspecs with
    | Some m => (set_refs m r, Ok tt)
    | None => (r, Raise GitCommandError)
    end.

(** [self.head.reset(index=True, working_tree=True)]: a hard reset to the
    commit of [HEAD]; one that fails has reset nothing. *)
Definition head_reset : M Repo unit :=
  fun r =>
    if reset_ok host r then (set_trees (head r) r, Ok tt)
    else (r, Raise GitCommandError).

(** [submodule.update(init=True)] *)
Definition submodule_update (submodule : Submodule) : M Repo unit :=
  fun r =>
    if submodule_update_ok host r submodule
    then (set_submodule_head (submodule_path submodule)
            (submodule_commit submodule) r, Ok tt)
    else (r, Raise GitCommandError).

Definition _update_submodules : M Repo unit :=
  c <- gets head ;;
  for_each (submodules_at host c) submodule_update.

Definition name (r : Repo) : string :=
  os_path.basename (working_tree_dir r).

Definition checkout (ref_name : string) (refspecs : option (list string))
  : M Repo unit :=
  main_remote <- remote MAIN_REMOTE_NAME ;;
  try_except (fetch main_remote refspecs)
    (fun e => match e with
              | GitCommandError => Some (raise GitCommandError)
              | _ => None
              end) ;;;
  commit_id <- _get_reference ref_name ;;
  modify (set_head commit_id) ;;;
  try_except head_reset
    (fun e => match e with
              | GitCommandError =>
                  Some (repo_name <- gets name ;;
                        raise (RepositoryError
                                 ("Could not find reference " ++ ref_name
                                  ++ " at " ++ repo_name ++ " repository")))
              | _ => None
              end) ;;;
  _update_submodules.

(** [PushError.__init__] *)
Definition PushError_init (push_info : PushInfo) : exn :=
  PushError ("Error pushing to remote reference " ++ remote_ref push_info).

(** [remote.push(refspec=refspec)[0]] *)
Definition push_first (r : Remote) (refspec : string) : M Repo PushInfo :=
  fun s =>
    match push_result host s r refspec with
    | Ok (push_info :: _) => (s, Ok push_info)
    | Ok [] => (s, Raise IndexError)
    | Raise e => (s, Raise e)
    end.

Definition push_head_commits (remote_repo_url remote_repo_branch : string)
  : M Repo unit :=
  let REPO_REMOTE_NAME := "push-remote" in
  force_create_remote REPO_REMOTE_NAME remote_repo_url ;;;
  r <- remote REPO_REMOTE_NAME ;;
  let refspec := "HEAD:refs/heads/" ++ remote_repo_branch in
  push_info <- push_first r refspec ;;
  if negb (Z.land PushInfo_ERROR (flags push_info) =? 0)
  then raise (PushError_init push_info)
  else ret tt.

End WithHost.
End GitRepository.

(** ** The factory [get_git_repository] *)

(** The factory works on the directory tree: a finite map from paths to
    what lies there.  A [GitRepository] handle is the path it was opened
    at; the repository it denotes is the one the tree holds at that path,
    so a change made through the handle is a change of the tree. *)
Module Factory.
Section WithHost.

Variable host : Host.

Local Open Scope py_scope.
Import Py.

(** [GitRepository.__init__], that is [git.Repo.__init__] *)
Definition GitRepository_init (repo_path : string)
  : M (gmap string Dir) string :=
  fun fs =>
    match fs !! repo_path with
    | None => (fs, Raise (NoSuchPathError repo_path))
    | Some NotARepository => (fs, Raise (InvalidGitRepositoryError repo_path))
    | Some (GitDir _) => (fs, Ok repo_path)
    end.

(** A method called on the handle [repo]. *)
Definition on_repo {A} (repo : string) (m : M Repo A)
  : M (gmap string Dir) A :=
  fun fs =>
    match fs !! repo with
    | Some (GitDir r) =>
        let (r', a) := m r in (<[repo := GitDir r']> fs, a)
    | Some NotARepository => (fs, Raise (InvalidGitRepositoryError repo))
    | None => (fs, Raise (NoSuchPathError repo))
    end.

(** [git clone remote_repo_url repo_path]: fails on an unreachable URL and
    on a destination that exists; the clone has the one remote [origin],
    bound to the URL cloned from. *)
Definition git_clone (remote_repo_url repo_path : string)
  : M (gmap string Dir) unit :=
  fun fs =>
    match fs !! repo_path, clone_result host remote_repo_url with
    | None, Some (names, c) =>
        (<[repo_path :=
             GitDir {| working_tree_dir := repo_path;
                       remotes := [mkRemote MAIN_REMOTE_NAME remote_repo_url];
                       refs := names; head := c; index := c;
                       working_tree := c; submodule_heads := ∅ |}]> fs,
         Ok tt)
    | _, _ => (fs, Raise GitCommandError)
    end.

(** [GitRepository.clone_from]: with a proxy the command line is run and
    the path opened; without one [git.Repo.clone_from] does both. *)
Definition clone_from (remote_repo_url repo_path : string)
  (proxy : option string) : M (gmap string Dir) string :=
  try_except
    (if truthy proxy then
       git_clone remote_repo_url repo_path ;;;
       GitRepository_init repo_path
     else
       git_clone remote_repo_url repo_path ;;;
       GitRepository_init repo_path)
    (fun e => match e with
              | GitCommandError =>
                  Some (raise (RepositoryError "Failed to clone repository"))
              | _ => None
              end).

(** [if not name: name = basename(splitext(url_parts.path)[0])] *)
Definition repository_name (remote_repo_url : string) (name : option string)
  : string :=
  let url_parts_path := urlparse_path host remote_repo_url in
  match name with
  | Some n =>
      if os_path.is_empty n
      then os_path.basename (fst (os_path.splitext url_parts_path))
      else n
  | None => os_path.basename (fst (os_path.splitext url_parts_path))
  end.

(** The [try] opens the path; the first [except] clause re-raises what it
    caught, the second one clones, the [else] clause rebinds the main
    remote of the repository found. *)
Definition get_git_repository (remote_repo_url parent_dir_path : string)
  (name : option string) : M (gmap string Dir) string :=
  let name := repository_name remote_repo_url name in
  let repo_path := os_path.join parent_dir_path name in
  fun fs =>
    match GitRepository_init repo_path fs with
    | (fs', Raise (InvalidGitRepositoryError p)) =>
        (fs', Raise (InvalidGitRepositoryError p))
    | (fs', Raise (NoSuchPathError _)) =>
        let proxy := http_proxy host in
        clone_from remote_repo_url repo_path proxy fs'
    | (fs', Raise e) => (fs', Raise e)
    | (fs', Ok repo) =>
        (on_repo repo
           (GitRepository.force_create_remote MAIN_REMOTE_NAME remote_repo_url) ;;;
         ret repo) fs'
    end.

End WithHost.
End Factory.

(** ** The chroot initialiser of [mock.py] *)

Module Mock.

(** The configuration values [mock.py] reads. *)
Record Conf : Type := mkConf {
  work_dir : string;
  mock_binary : string;
  mock_args : option string
}.

Inductive event : Type :=
  | Open (path : string)
  | LockEx (path : string)
  | Run (cmd : string)
  | Unlock (path : string).

(** What an execution of [initialize] acts on: the state of the
    exclusive lock this process holds on the lock file, and the
    operations performed so far, latest last. *)
Record World : Type := mkWorld {
  lock_held : bool;
  trace : list event
}.

Record Mock : Type := mkMock {
  binary_file : string;
  config_file : string;
  extra_args : string;
  unique_extension : string
}.

Section WithConf.

Variable CONF : Conf.
(** whether [utils.run_command] succeeds on a command line *)
Variable command_ok : string -> bool.

Local Open Scope py_scope.
Import Py.

Definition LOCK_FILE_NAME : string := "mock.lock".
Definition LOCK_FILE_PATH : string :=
  os_path.join (work_dir CONF) LOCK_FILE_NAME.

(** [CONF.get('mock_args') or ""] *)
Definition __init__ (config_file unique_extension : string) : Mock :=
  {| binary_file := mock_binary CONF;
     config_file := config_file;
     extra_args := if truthy (mock_args CONF)
                   then default "" (mock_args CONF) else "";
     unique_extension := unique_extension |}.

Definition common_mock_args (self : Mock) : list string :=
  [binary_file self; "-r"; config_file self; extra_args self;
   "--uniqueext"; unique_extension self].

(** [sep.join(xs)] *)
Fixpoint str_join (sep : string) (xs : list string) : string :=
  match xs with
  | [] => ""
  | [x] => x
  | x :: rest => x ++ sep ++ str_join sep rest
  end.

Definition emit (e : event) : M World unit :=
  modify (fun w => {| lock_held := lock_held w; trace := trace w ++ [e] |}).

(** [utils.run_command(cmd)] raises when the command fails. *)
Definition utils_run_command (cmd : string) : M World unit :=
  emit (Run cmd) ;;;
  if command_ok cmd then ret tt else raise (ExecutionError cmd).

Definition run_command (self : Mock) (cmd : string) : M World unit :=
  let cmd := str_join " " (common_mock_args self ++ [cmd]) in
  utils_run_command cmd.

Definition open_w (path : string) : M World string :=
  emit (Open path) ;;; ret path.

(** [fcntl.lockf(lock_file, fcntl.LOCK_EX)] returns once the lock is
    held. *)
Definition lockf_EX (lock_file : string) : M World unit :=
  fun w => ({| lock_held := true; trace := trace w ++ [LockEx lock_file] |},
            Ok tt).

Definition lockf_UN (lock_file : string) : M World unit :=
  fun w => ({| lock_held := false; trace := trace w ++ [Unlock lock_file] |},
            Ok tt).

Definition initialize (self : Mock) : M World unit :=
  lock_file <- open_w LOCK_FILE_PATH ;;
  lockf_EX lock_file ;;;
  run_command self "--scrub all" ;;;
  run_command self "--init" ;;;
  lockf_UN lock_file.

End WithConf.
End Mock.

(** ** External commands *)

(** What [utils.run_command], [os.path.exists] and the archive writers act
    on: the set of paths that exist and the operations performed so far,
    latest last. *)
Module Shell.

Inductive event : Type :=
  | Command (cmd : string) (cwd : option string)
  | WriteTar (file : string) (prefix : string) (source : option string).

Record World : Type := mkWorld {
  paths : gset string;
  trace : list event
}.

Section WithSystem.

(** What running a command line in a directory does to the existing
    paths, and whether the command succeeds. *)
Variable run_effect :
  string -> option string -> gset string -> gset string * bool.

Import Py.

(** Modelled from the spec: [lib/utils.py] is not among the sources at
    hand; its [run_command(cmd, cwd=None)] executes the command line and
    raises the generic execution error when the command fails. *)
Definition run_command (cmd : string) (cwd : option string) : M World unit :=
  fun w =>
    let (ps, ok) := run_effect cmd cwd (paths w) in
    ({| paths := ps; trace := trace w ++ [Command cmd cwd] |},
     if ok then Ok tt else Raise (ExecutionError cmd)).

(** [os.path.exists(path)] *)
Definition exists_ (path : string) : M World bool :=
  fun w => (w, Ok (bool_decide (path ∈ paths w))).

End WithSystem.
End Shell.

(** ** [GitRepository.archive] *)

Module Archive.
Section WithSystem.

Variable host : Host.
Variable run_effect :
  string -> option string -> gset string -> gset string * bool.
(** The exception, if any, that writing one tar file ends in: [open] or
    the [archive] method of the repository ([None]) or of the module of a
    submodule ([Some name]). *)
Variable archive_error : string -> option string -> option exn.

Local Open Scope py_scope.
Import Py.

(** [s.replace(old, new)] for one-character [old] and [new] *)
Fixpoint str_replace (old new : ascii) (s : string) : string :=
  match s with
  | EmptyString => EmptyString
  | String c s' =>
      String (if Ascii.eqb c old then new else c) (str_replace old new s')
  end.

(** [with open(file, "wb") as archive_file: repo.archive(archive_file,
    prefix=prefix, format="tar")] *)
Definition write_tar (file prefix : string) (source : option string)
  : M Shell.World unit :=
  fun w =>
    let w' := {| Shell.paths := {[file]} ∪ Shell.paths w;
                 Shell.trace := Shell.trace w
                                ++ [Shell.WriteTar file prefix source] |} in
    match archive_error file source with
    | None => (w', Ok tt)
    | Some e => (w', Raise e)
    end.

Definition submodule_archive_file_path (archive_name build_dir : string)
  (submodule : Submodule) : string :=
  os_path.join build_dir
    (archive_name ++ "-" ++ str_replace "/" "_" (submodule_name submodule)
     ++ ".tar").

(** The loop that writes one tar file per submodule and collects the
    paths in [submodules_archives_paths]. *)
Fixpoint archive_submodules (archive_name build_dir : string)
  (submodules : list Submodule) (submodules_archives_paths : list string)
  : M Shell.World (list string) :=
  match submodules with
  | [] => ret submodules_archives_paths
  | submodule :: rest =>
      let submodule_archive_file_path :=
        submodule_archive_file_path archive_name build_dir submodule in
      write_tar submodule_archive_file_path
        (os_path.join archive_name (submodule_path submodule) ++ "/")
        (Some (submodule_name submodule)) ;;;
      archive_submodules archive_name build_dir rest
        (submodules_archives_paths ++ [submodule_archive_file_path])
  end.

Definition concatenate_command (archive_file_path submodule_archive_path : string)
  : string :=
  "tar --concatenate --file " ++ archive_file_path ++ " "
  ++ submodule_archive_path.

Definition archive (self : Repo) (archive_name build_dir : string)
  : M Shell.World string :=
  let archive_file_path := os_path.join build_dir (archive_name ++ ".tar") in
  write_tar archive_file_path (archive_name ++ "/") None ;;;
  submodules_archives_paths <-
    archive_submodules archive_name build_dir
      (submodules_at host (head self)) [] ;;
  (match submodules_archives_paths with
   | [] => ret tt
   | _ =>
       for_each submodules_archives_paths
         (fun submodule_archive_path =>
            Shell.run_command run_effect
              (concatenate_command archive_file_path submodule_archive_path)
              None)
   end) ;;;
  let compressed_archive_file_path := archive_file_path ++ ".gz" in
  Shell.run_command run_effect ("gzip --fast " ++ archive_file_path) None ;;;
  ret compressed_archive_file_path.

End WithSystem.
End Archive.

(** ** [SvnRepository] and [get_svn_repository] *)

Module SvnRepository.

Record Svn : Type := mkSvn {
  url : string;
  working_copy_dir : string
}.

(** The parts of [urlparse.urlparse(proxy)] the module reads.  A proxy
    URL without a host name, for which [url.hostname] is [None], is
    outside this model. *)
Record ParsedUrl : Type := mkParsedUrl {
  scheme : string;
  hostname : string;
  port : option Z
}.

Section WithSystem.

Variable host : Host.
Variable urlparse : string -> ParsedUrl.
Variable run_effect :
  string -> option string -> gset string -> gset string * bool.

Local Open Scope py_scope.
Import Py.

(** ['%s' % port] *)
Definition str_port (p : option Z) : string :=
  match p with
  | Some n => pretty n
  | None => "None"
  end.

Definition __init__ (remote_repo_url local_repo_path : string) : Svn :=
  {| url := remote_repo_url; working_copy_dir := local_repo_path |}.

Definition name (self : Svn) : string :=
  os_path.basename (working_copy_dir self).

(** The command line [checkout_from] builds. *)
Definition checkout_command (remote_repo_url repo_path : string) : string :=
  let command := "svn checkout " in
  let proxy := http_proxy host in
  let command :=
    if truthy proxy then
      let url := urlparse (default "" proxy) in
      let host := scheme url ++ "://" ++ hostname url in
      let port := port url in
      let options :=
        ["servers:global:http-proxy-host='" ++ host ++ "'";
         "servers:global:http-proxy-port='" ++ str_port port ++ "'"] in
      let proxy_conf :=
        List.map (fun option => "--config-option " ++ option) options in
      command ++ Mock.str_join " " proxy_conf ++ " "
    else command in
  command ++ remote_repo_url ++ " " ++ repo_path.

(** The bare [except:] catches whatever the [try] raised. *)
Definition checkout_from (remote_repo_url repo_path : string)
  : M Shell.World Svn :=
  let command := checkout_command remote_repo_url repo_path in
  try_except
    (Shell.run_command run_effect command None ;;;
     ret (__init__ remote_repo_url repo_path))
    (fun _ => Some (raise (RepositoryError "Failed to clone repository"))).

Definition checkout (self : Svn) (revision : string) : M Shell.World unit :=
  try_except
    (Shell.run_command run_effect "svn update" (Some (working_copy_dir self)))
    (fun _ => Some (ret tt)) ;;;
  try_except
    (Shell.run_command run_effect
       ("svn checkout " ++ url self ++ "@" ++ revision ++ " .")
       (Some (working_copy_dir self)))
    (fun _ =>
       Some (raise (RepositoryError
                      ("Could not find revision " ++ revision ++ " at "
                       ++ name self ++ " repository")))).

Definition get_svn_repository (remote_repo_url repo_path : string)
  : M Shell.World Svn :=
  found <- Shell.exists_ repo_path ;;
  if found : bool then ret (__init__ remote_repo_url repo_path)
  else checkout_from remote_repo_url repo_path.

End WithSystem.
End SvnRepository.

(** ** The design document's reading of the operations *)






(** The commit of the first name of a list that resolves. *)
Fixpoint first_resolving (names : gmap string Commit) (l : list string)
  : option Commit :=
  match l with
  | [] => None
  | n :: rest =>
      match names !! n with
      | Some c => Some c
      | None => first_resolving names rest
      end
  end.

(** The outcome of a resolution: the commit, or the [RepositoryError]
    for the reference. *)
Definition found_or_raise (ref_name : string) (o : option Commit)
  : result Commit :=
  match o with
  | Some c => Ok c
  | None =>
      Raise (RepositoryError
               ("Reference '" ++ ref_name ++ "' not found in repository"))
  end.

(** The message of the [RepositoryError] a failed hard reset ends in. *)
Definition reset_error_message (ref_name : string) (r : Repo) : string :=
  "Could not find reference " ++ ref_name ++ " at " ++ GitRepository.name r
  ++ " repository".

(** The upsert as the design document words it. *)
Definition upsert (name url : string) (rs : list Remote) : list Remote :=
  match find (fun remote => String.eqb (remote_name remote) name) rs with
  | Some previous =>
      if String.eqb (remote_url previous) url then rs
      else List.filter (fun remote => negb (String.eqb (remote_name remote) name)) rs
           ++ [mkRemote name url]
  | None => rs ++ [mkRemote name url]
  end.

(** How many remotes carry a name. *)
Definition count_named (name : string) (rs : list Remote) : nat :=
  length (List.filter (fun remote => String.eqb (remote_name remote) name) rs).

(** Remote names are the keys of configuration sections: no two remotes
    of a repository share one. *)
Definition unique_remote_names (r : Repo) : Prop :=
  NoDup (List.map remote_name (remotes r)).

(** The error bit of a push result. *)
Definition has_error_flag (push_info : PushInfo) : bool :=
  Z.testbit (flags push_info) 10.

(** ** A sample world *)

Module Sample.

(** A stand-in for [urlparse.urlparse(url).path] on URLs of the form
    [scheme://host/path]. *)
Fixpoint from_first_sep (s : string) : string :=
  match s with
  | EmptyString => ""
  | String c s' =>
      if Ascii.eqb c "/" then s else from_first_sep s'
  end.

Fixpoint url_path (s : string) : string :=
  match s with
  | EmptyString => ""
  | String c s' =>
      match s' with
      | String d rest =>
          if Ascii.eqb c "/" && Ascii.eqb d "/" then from_first_sep rest
          else url_path s'
      | EmptyString => ""
      end
  end.

Definition url : string := "https://host/example.git".
Definition other_url : string := "https://mirror/example.git".

Definition names : gmap string Commit :=
  {[ "origin/release-1.0" := "c1"; "release-1.0" := "c2" ]}.

Definition vendor_lib : Submodule :=
  mkSubmodule "vendor/lib" "https://host/lib.git" "vendor/lib" "d7".

Definition repo : Repo :=
  {| working_tree_dir := "/work/example";
     remotes := [mkRemote "origin" url];
     refs := ∅;
     head := "c0"; index := "c0"; working_tree := "c0";
     submodule_heads := ∅ |}.

(** The sample repository once [names] has been fetched. *)
Definition fetched : Repo := set_refs names repo.

Definition rejected : PushInfo := mkPushInfo 1040 "refs/heads/devel" "[rejected]".
Definition accepted : PushInfo := mkPushInfo 256 "refs/heads/devel" "c0..c1".

(** A host on which everything succeeds: the fetch brings [names], the
    push is accepted. *)
Definition host : Host :=
  {| fetch_result := fun _ _ _ => Some names;
     reset_ok := fun _ => true;
     submodules_at := fun _ => [vendor_lib];
     submodule_update_ok := fun _ _ => true;
     push_result := fun _ _ _ => Ok [accepted];
     clone_result := fun _ => Some (names, "c2");
     urlparse_path := url_path;
     http_proxy := None |}.

(** The remote cannot be reached: fetch and clone fail. *)
Definition offline : Host :=
  {| fetch_result := fun _ _ _ => None;
     reset_ok := fun _ => true;
     submodules_at := fun _ => [];
     submodule_update_ok := fun _ _ => true;
     push_result := fun _ _ _ => Raise GitCommandError;
     clone_result := fun _ => None;
     urlparse_path := url_path;
     http_proxy := None |}.


(** The fetch brings nothing that resolves. *)
Definition empty_remote : Host :=
  {| fetch_result := fun _ _ _ => Some ∅;
     reset_ok := fun _ => true;
     submodules_at := fun _ => [];
     submodule_update_ok := fun _ _ => true;
     push_result := fun _ _ _ => Ok [];
     clone_result := fun _ => Some (∅, "c0");
     urlparse_path := url_path;
     http_proxy := None |}.

(** The push is rejected by the remote, or reports a rejection only
    after a first entry that went through. *)
Definition rejecting : Host :=
  {| fetch_result := fun _ _ _ => Some names;
     reset_ok := fun _ => true;
     submodules_at := fun _ => [];
     submodule_update_ok := fun _ _ => true;
     push_result := fun _ _ _ => Ok [rejected];
     clone_result := fun _ => Some (names, "c2");
     urlparse_path := url_path;
     http_proxy := None |}.


(** Directory trees: nothing under [/work], a stale non-git directory
    at [/work/example], and the sample repository bound to another
    URL. *)
Definition empty_tree : gmap string Dir := ∅.
Definition stale_tree : gmap string Dir :=
  {[ "/work/example" := NotARepository ]}.
Definition mirrored_tree : gmap string Dir :=
  {[ "/work/example" := GitDir (set_remotes [mkRemote "origin" other_url] repo) ]}.

Definition conf : Mock.Conf :=
  Mock.mkConf "/var/lib/builds" "/usr/bin/mock" None.
Definition mock : Mock.Mock := Mock.__init__ conf "epel-7-ppc64le" "build-1".
Definition idle : Mock.World := Mock.mkWorld false [].
Definition scrub_fails (cmd : string) : bool :=
  negb (String.eqb cmd
          "/usr/bin/mock -r epel-7-ppc64le  --uniqueext build-1 --scrub all").
Definition init_fails (cmd : string) : bool :=
  negb (String.eqb cmd
          "/usr/bin/mock -r epel-7-ppc64le  --uniqueext build-1 --init").

End Sample.

(** ** The operations of a complete [archive] *)

(** The tar file written for a submodule and the command that appends it
    to the tar file of the repository. *)
Definition submodule_tar (archive_name build_dir : string) (s : Submodule)
  : Shell.event :=
  Shell.WriteTar (Archive.submodule_archive_file_path archive_name build_dir s)
    (os_path.join archive_name (submodule_path s) ++ "/")
    (Some (submodule_name s)).

Definition submodule_concatenation (archive_name build_dir : string)
  (s : Submodule) : Shell.event :=
  Shell.Command
    (Archive.concatenate_command
       (os_path.join build_dir (archive_name ++ ".tar"))
       (Archive.submodule_archive_file_path archive_name build_dir s))
    None.

(** ** Further sample worlds *)

Module Scenario.

Definition broken : Submodule :=
  mkSubmodule "vendor/broken" "https://host/broken.git" "vendor/broken" "e1".
Definition tools : Submodule :=
  mkSubmodule "tools" "https://host/tools.git" "tools" "f3".

(** The update of [vendor/broken] fails, every other step succeeds. *)
Definition submodule_fails : Host :=
  {| fetch_result := fun _ _ _ => Some Sample.names;
     reset_ok := fun _ => true;
     submodules_at := fun _ => [Sample.vendor_lib; broken; tools];
     submodule_update_ok :=
       fun _ s => negb (String.eqb (submodule_name s) "vendor/broken");
     push_result := fun _ _ _ => Ok [Sample.accepted];
     clone_result := fun _ => Some (Sample.names, "c2");
     urlparse_path := Sample.url_path;
     http_proxy := None |}.

(** Two remotes, and names that resolve for the bare name only when it is
    written with a leading slash. *)
Definition two_remotes : Repo :=
  {| working_tree_dir := "/work/example";
     remotes := [mkRemote "origin" Sample.url;
                 mkRemote "push-remote" Sample.other_url];
     refs := {[ "origin/devel" := "c1"; "/devel" := "c2" ]};
     head := "c0"; index := "c0"; working_tree := "c0";
     submodule_heads := ∅ |}.

(** A machine on which every command succeeds and creates nothing, one
    on which every command fails, and one on which only the update of a
    subversion working copy fails. *)
Definition all_succeed (cmd : string) (cwd : option string)
  (ps : gset string) : gset string * bool := (ps, true).
Definition all_fail (cmd : string) (cwd : option string)
  (ps : gset string) : gset string * bool := (ps, false).
Definition update_fails (cmd : string) (cwd : option string)
  (ps : gset string) : gset string * bool :=
  (ps, negb (String.eqb cmd "svn update")).

(** The second concatenation of an archive fails. *)
Definition concatenate_fails (cmd : string) (cwd : option string)
  (ps : gset string) : gset string * bool :=
  (ps,
   negb (String.eqb cmd
           "tar --concatenate --file /build/example-1.0.tar /build/example-1.0-vendor_broken.tar")).

Definition no_archive_error (file : string) (source : option string)
  : option exn := None.

(** A machine with a subversion working copy at [/work/legacy]. *)
Definition with_legacy : Shell.World :=
  Shell.mkWorld {[ "/work/legacy" ]} [].
Definition bare : Shell.World := Shell.mkWorld ∅ [].

Definition legacy : SvnRepository.Svn :=
  SvnRepository.mkSvn "https://host/svn/legacy" "/work/legacy".

Definition parse_proxy (proxy : string) : SvnRepository.ParsedUrl :=
  SvnRepository.mkParsedUrl "http" "proxy" (Some 3128).

End Scenario.

(** * Properties *)

(** ** Sanity of the path functions *)

Example join_relative : os_path.join "origin" "master" = "origin/master".
Proof. reflexivity. Qed.

Example join_absolute : os_path.join "origin" "/master" = "/master".
Proof. reflexivity. Qed.

Example join_after_sep : os_path.join "/work/" "example" = "/work/example".
Proof. reflexivity. Qed.

Example splitext_git : os_path.splitext "/team/example.git" = ("/team/example", ".git").
Proof. reflexivity. Qed.

Example splitext_hidden : os_path.splitext "/team/.git" = ("/team/.git", "").
Proof. reflexivity. Qed.

Example splitext_dotted_dir : os_path.splitext "/a.b/c" = ("/a.b/c", "").
Proof. reflexivity. Qed.

Example basename_last : os_path.basename "/team/example" = "example".
Proof. reflexivity. Qed.

Example repository_name_inferred :
  Factory.repository_name Sample.host Sample.url None = "example".
Proof. reflexivity. Qed.

Example repository_name_given :
  Factory.repository_name Sample.host Sample.url (Some "mirror") = "mirror".
Proof. reflexivity. Qed.

(** ** Remotes *)

Section Remotes.

Import GitRepository.

Abbreviation named name :=
  (fun remote : Remote => String.eqb (remote_name remote) name).

Lemma any_named_find (name : string) (rs : list Remote) :
  any_named name rs = true ->
  exists previous, find (named name) rs = Some previous
                   /\ remote_name previous = name.
Proof.
  induction rs as [|x rs IH]; simpl; [discriminate|].
  destruct (String.eqb (remote_name x) name) eqn:E; simpl.
  - intros _. exists x. split; [reflexivity|]. now apply String.eqb_eq.
  - exact IH.
Qed.

Lemma not_any_named_find (name : string) (rs : list Remote) :
  any_named name rs = false -> find (named name) rs = None.
Proof.
  induction rs as [|x rs IH]; simpl; [reflexivity|].
  destruct (String.eqb (remote_name x) name); simpl; [discriminate|exact IH].
Qed.

Lemma any_named_after_delete (name : string) (rs : list Remote) :
  any_named name
    (List.filter (fun remote => negb (String.eqb (remote_name remote) name)) rs)
  = false.
Proof.
  induction rs as [|x rs IH]; simpl; [reflexivity|].
  destruct (String.eqb (remote_name x) name) eqn:E; simpl; [exact IH|].
  now rewrite E.
Qed.

Lemma any_named_app (name : string) (rs rs' : list Remote) :
  any_named name (rs ++ rs') = any_named name rs || any_named name rs'.
Proof. apply existsb_app. Qed.

Lemma set_remotes_same (r : Repo) : set_remotes (remotes r) r = r.
Proof. now destruct r. Qed.

(** The method computes the upsert and never raises. *)
Lemma force_create_remote_eq (name url : string) (r : Repo) :
  force_create_remote name url r
  = (set_remotes (upsert name url (remotes r)) r, Ok tt).
Proof.
  unfold force_create_remote, upsert, Py.bind, Py.gets, remotes_getitem.
  destruct (any_named name (remotes r)) eqn:Hany.
  - destruct (any_named_find _ _ Hany) as (previous & Hfind & _).
    rewrite Hfind.
    destruct (String.eqb (remote_url previous) url) eqn:Hurl; simpl.
    + unfold Py.ret. rewrite Hany. simpl. now rewrite set_remotes_same.
    + rewrite any_named_after_delete. simpl.
      unfold create_remote. simpl.
      now rewrite any_named_after_delete.
  - rewrite (not_any_named_find _ _ Hany). simpl.
    unfold Py.ret. rewrite Hany. simpl.
    unfold create_remote. now rewrite Hany.
Qed.

Lemma count_named_app (name : string) (rs rs' : list Remote) :
  count_named name (rs ++ rs') = (count_named name rs + count_named name rs')%nat.
Proof. unfold count_named. now rewrite List.filter_app, length_app. Qed.

Lemma count_named_absent (name : string) (rs : list Remote) :
  any_named name rs = false -> count_named name rs = 0%nat.
Proof.
  unfold count_named.
  induction rs as [|x rs IH]; simpl; [reflexivity|].
  destruct (String.eqb (remote_name x) name); simpl; [discriminate|exact IH].
Qed.

Lemma any_named_in (name : string) (rs : list Remote) :
  any_named name rs = true -> name ∈ List.map remote_name rs.
Proof.
  induction rs as [|x rs IH]; simpl; [discriminate|].
  destruct (String.eqb (remote_name x) name) eqn:E; simpl.
  - intros _. apply String.eqb_eq in E. subst name. apply list_elem_of_here.
  - intros H. apply list_elem_of_further. now apply IH.
Qed.

Lemma count_named_unique (name : string) (rs : list Remote) :
  NoDup (List.map remote_name rs) ->
  any_named name rs = true -> count_named name rs = 1%nat.
Proof.
  unfold count_named.
  induction rs as [|x rs IH]; simpl; [discriminate|].
  intros Hnd. apply NoDup_cons in Hnd as [Hnotin Hnd].
  destruct (String.eqb (remote_name x) name) eqn:E; simpl.
  - intros _. apply String.eqb_eq in E. subst name.
    destruct (any_named (remote_name x) rs) eqn:Hrest.
    + exfalso. apply Hnotin. now apply any_named_in.
    + f_equal. now apply count_named_absent.
  - now apply IH.
Qed.

Lemma find_named_app_absent (name : string) (rs rs' : list Remote) :
  any_named name rs = false ->
  find (named name) (rs ++ rs') = find (named name) rs'.
Proof.
  induction rs as [|x rs IH]; simpl; [reflexivity|].
  destruct (String.eqb (remote_name x) name); simpl; [discriminate|exact IH].
Qed.

Lemma find_named_upsert (name url : string) (rs : list Remote) :
  find (named name) (upsert name url rs) = Some (mkRemote name url).
Proof.
  unfold upsert.
  destruct (find (named name) rs) as [previous|] eqn:Hfind.
  - destruct (String.eqb (remote_url previous) url) eqn:Hurl.
    + rewrite Hfind. apply find_some in Hfind as [_ Hname].
      apply String.eqb_eq in Hname, Hurl. destruct previous; simpl in *.
      now subst.
    + rewrite find_named_app_absent by apply any_named_after_delete.
      simpl. now rewrite String.eqb_refl.
  - assert (any_named name rs = false) as Hany.
    { destruct (any_named name rs) eqn:Hany; [|reflexivity].
      destruct (any_named_find _ _ Hany) as (p & Hp & _). congruence. }
    rewrite find_named_app_absent by exact Hany.
    simpl. now rewrite String.eqb_refl.
Qed.

Lemma upsert_idempotent (name url : string) (rs : list Remote) :
  upsert name url (upsert name url rs) = upsert name url rs.
Proof.
  unfold upsert at 1. rewrite find_named_upsert. simpl.
  now rewrite String.eqb_refl.
Qed.

Lemma count_named_upsert (name url : string) (rs : list Remote) :
  NoDup (List.map remote_name rs) ->
  count_named name (upsert name url rs) = 1%nat.
Proof.
  intros Hnd. unfold upsert.
  destruct (find (named name) rs) as [previous|] eqn:Hfind.
  - destruct (String.eqb (remote_url previous) url).
    + apply count_named_unique; [exact Hnd|].
      apply existsb_exists. exists previous.
      apply find_some in Hfind. exact Hfind.
    + rewrite count_named_app, count_named_absent
        by apply any_named_after_delete.
      unfold count_named. simpl. now rewrite String.eqb_refl.
  - assert (any_named name rs = false) as Hany.
    { destruct (any_named name rs) eqn:Hany; [|reflexivity].
      destruct (any_named_find _ _ Hany) as (p & Hp & _). congruence. }
    rewrite count_named_app, count_named_absent by exact Hany.
    unfold count_named. simpl. now rewrite String.eqb_refl.
Qed.

(** The upsert keeps remote names unique. *)
Lemma upsert_unique (name url : string) (rs : list Remote) :
  NoDup (List.map remote_name rs) ->
  NoDup (List.map remote_name (upsert name url rs)).
Proof.
  intros Hnd. unfold upsert.
  assert (forall l : list Remote,
             NoDup (List.map remote_name l) ->
             any_named name l = false ->
             NoDup (List.map remote_name (l ++ [mkRemote name url]))) as Happ.
  { intros l Hl Habs. rewrite List.map_app. simpl.
    apply NoDup_app. split; [exact Hl|]. split.
    - intros x Hx Hin. apply list_elem_of_In in Hx, Hin.
      simpl in Hin. destruct Hin as [<-|[]].
      apply in_map_iff in Hx as (p & Hp & Hin).
      assert (any_named name l = true) as Habs'; [|congruence].
      apply existsb_exists. exists p. split; [exact Hin|].
      now apply String.eqb_eq.
    - apply NoDup_singleton. }
  assert (forall l : list Remote,
             NoDup (List.map remote_name l) ->
             NoDup (List.map remote_name
                      (List.filter (fun remote => negb (String.eqb (remote_name remote) name)) l)))
    as Hfilter.
  { induction l as [|x l IH]; simpl; [intros; constructor|].
    intros Hl. apply NoDup_cons in Hl as [Hx Hl].
    destruct (negb (String.eqb (remote_name x) name)); simpl; [|now apply IH].
    apply NoDup_cons. split; [|now apply IH].
    intros Hin. apply Hx.
    apply list_elem_of_In, in_map_iff in Hin as (p & Hp & Hin).
    apply list_elem_of_In, in_map_iff. exists p. split; [exact Hp|].
    now apply List.filter_In in Hin as [Hin _]. }
  destruct (find (named name) rs) as [previous|] eqn:Hfind.
  - destruct (String.eqb (remote_url previous) url); [exact Hnd|].
    apply Happ; [now apply Hfilter|apply any_named_after_delete].
  - apply Happ; [exact Hnd|].
    destruct (any_named name rs) eqn:Hany; [|reflexivity].
    destruct (any_named_find _ _ Hany) as (p & Hp & _). congruence.
Qed.

End Remotes.

(** ** Reference resolution *)

Section Resolution.

Import GitRepository.


Lemma last_snoc (l : list string) (x d : string) : List.last (l ++ [x]) d = x.
Proof. apply List.last_last. Qed.

Lemma last_nonempty (x : string) (l : list string) (d d' : string) :
  List.last (x :: l) d = List.last (x :: l) d'.
Proof.
  revert x. induction l as [|y l IH]; intros x; [reflexivity|].
  change (List.last (y :: l) d = List.last (y :: l) d'). apply IH.
Qed.

(** The loop returns the commit of the first candidate that resolves
    and leaves the repository as it was; when none resolves, the
    message carries the candidate tried last. *)
Lemma first_commit_eq (l : list string) (current : string) (r : Repo) :
  first_commit l current r
  = (r, found_or_raise (List.last l current) (first_resolving (refs r) l)).
Proof.
  revert current. induction l as [|n l IH]; intros current.
  - reflexivity.
  - cbn [first_commit first_resolving].
    unfold Py.try_except, commit.
    destruct (refs r !! n) as [c|] eqn:Hn.
    + reflexivity.
    + rewrite IH. destruct l as [|m l]; [reflexivity|].
      now rewrite (last_nonempty m l n current).
Qed.

Lemma _get_reference_eq (ref_name : string) (r : Repo) :
  _get_reference ref_name r
  = (r, found_or_raise ref_name
          (first_resolving (refs r) (candidates (remotes r) ref_name))).
Proof.
  unfold _get_reference, Py.bind, Py.gets.
  rewrite first_commit_eq. unfold candidates. now rewrite last_snoc.
Qed.




Lemma first_resolving_none (names : gmap string Commit) (l : list string) :
  Forall (fun n => names !! n = None) l -> first_resolving names l = None.
Proof.
  induction 1 as [|n l Hn _ IH]; simpl; [reflexivity|].
  now rewrite Hn.
Qed.

End Resolution.

(** ** [checkout], step by step *)

Section Checkout.

Variable host : Host.

Import GitRepository.

(** The submodule cascade touches the submodules only. *)
Lemma for_each_submodule_update_frame (subs : list Submodule)
  (r r' : Repo) (out : result unit) :
  Py.for_each subs (submodule_update host) r = (r', out) ->
  head r' = head r /\ index r' = index r /\ working_tree r' = working_tree r
  /\ remotes r' = remotes r /\ refs r' = refs r.
Proof.
  revert r. induction subs as [|s subs IH]; intros r; simpl.
  - intros [= <- _]. repeat split.
  - unfold Py.bind, submodule_update at 1.
    destruct (submodule_update_ok host r s).
    + intros H. apply IH in H. exact H.
    + intros [= <- _]. repeat split.
Qed.

Lemma _update_submodules_frame (r r' : Repo) (out : result unit) :
  _update_submodules host r = (r', out) ->
  head r' = head r /\ index r' = index r /\ working_tree r' = working_tree r
  /\ remotes r' = remotes r /\ refs r' = refs r.
Proof.
  unfold _update_submodules, Py.bind, Py.gets.
  apply for_each_submodule_update_frame.
Qed.

(** The four steps of [checkout] and where each one can leave it. *)
Lemma checkout_eq (ref_name : string) (refspecs : option (list string))
  (r : Repo) :
  checkout host ref_name refspecs r
  = match find (fun remote => String.eqb (remote_name remote) MAIN_REMOTE_NAME)
               (remotes r) with
    | None => (r, Raise ValueError)
    | Some main_remote =>
        match fetch_result host r main_remote refspecs with
        | None => (r, Raise GitCommandError)
        | Some names =>
            let fetched := set_refs names r in
            match first_resolving names (candidates (remotes r) ref_name) with
            | None =>
                (fetched,
                 Raise (RepositoryError
                          ("Reference '" ++ ref_name
                           ++ "' not found in repository")))
            | Some commit_id =>
                let moved := set_head commit_id fetched in
                if reset_ok host moved
                then _update_submodules host (set_trees commit_id moved)
                else (moved,
                      Raise (RepositoryError
                               (reset_error_message ref_name r)))
            end
        end
    end.
Proof.
  unfold checkout, Py.bind at 1, remote.
  destruct (find _ (remotes r)) as [main_remote|]; [|reflexivity].
  unfold Py.bind at 1, Py.try_except at 1, fetch.
  destruct (fetch_result host r main_remote refspecs) as [names|];
    [|reflexivity].
  unfold Py.bind at 1. rewrite _get_reference_eq. simpl.
  destruct (first_resolving names (candidates (remotes r) ref_name))
    as [commit_id|]; [|reflexivity].
  simpl. unfold Py.bind at 1, Py.modify.
  unfold Py.bind at 1, Py.try_except, head_reset.
  destruct (reset_ok host (set_head commit_id (set_refs names r)));
    reflexivity.
Qed.

End Checkout.

(** ** Reference resolution and [checkout] *)

Section CheckoutProperties.

Import GitRepository.




End CheckoutProperties.



(** C2: when the main remote has been fetched and neither a
    remote-qualified candidate nor the bare name resolves, [checkout]
    raises [RepositoryError] with a message that names the reference, and
    [HEAD], the index, the working tree and the submodules are where they
    were before the call: nothing has been reset. *)
Theorem checkout_unresolvable (host : Host) (r : Repo) (ref_name : string)
  (refspecs : option (list string)) (main_remote : Remote)
  (names : gmap string Commit) :
  find (fun remote => String.eqb (remote_name remote) MAIN_REMOTE_NAME)
       (remotes r) = Some main_remote ->
  fetch_result host r main_remote refspecs = Some names ->
  Forall (fun candidate => names !! candidate = None)
         (GitRepository.candidates (remotes r) ref_name) ->
  exists r',
    GitRepository.checkout host ref_name refspecs r
    = (r', Raise (RepositoryError
                    ("Reference '" ++ ref_name ++ "' not found in repository")))
    /\ head r' = head r
    /\ index r' = index r
    /\ working_tree r' = working_tree r
    /\ submodule_heads r' = submodule_heads r.
Proof.
  intros Hfind Hfetch Hnone.
  exists (set_refs names r).
  rewrite checkout_eq, Hfind, Hfetch.
  rewrite (first_resolving_none _ _ Hnone).
  repeat split.
Qed.

Lemma checkout_unresolvable_witness :
  exists r',
    GitRepository.checkout Sample.empty_remote "release-1.0" None Sample.repo
    = (r', Raise (RepositoryError
                    "Reference 'release-1.0' not found in repository"))
    /\ head r' = "c0" /\ index r' = "c0" /\ working_tree r' = "c0"
    /\ submodule_heads r' = ∅.
Proof.
  apply (checkout_unresolvable Sample.empty_remote Sample.repo "release-1.0"
           None (mkRemote "origin" Sample.url) ∅).
  - reflexivity.
  - reflexivity.
  - repeat constructor.
Defined.






(** ** The factory *)

Section FactoryProperties.

Variable host : Host.

(** A path that holds something else than a git repository: the error of
    the git engine comes back as it is and the tree is as it was. *)
Lemma get_git_repository_invalid (fs : gmap string Dir)
  (remote_repo_url parent_dir_path : string) (name : option string) :
  let repo_path :=
    os_path.join parent_dir_path
      (Factory.repository_name host remote_repo_url name) in
  fs !! repo_path = Some NotARepository ->
  Factory.get_git_repository host remote_repo_url parent_dir_path name fs
  = (fs, Raise (InvalidGitRepositoryError repo_path)).
Proof.
  intros repo_path Hdir.
  unfold Factory.get_git_repository, Factory.GitRepository_init.
  fold repo_path. now rewrite Hdir.
Qed.

(** Reopening an existing repository rebinds its main remote. *)
Lemma get_git_repository_reopen (fs : gmap string Dir)
  (remote_repo_url parent_dir_path : string) (name : option string)
  (r : Repo) :
  let repo_path :=
    os_path.join parent_dir_path
      (Factory.repository_name host remote_repo_url name) in
  fs !! repo_path = Some (GitDir r) ->
  Factory.get_git_repository host remote_repo_url parent_dir_path name fs
  = (<[repo_path :=
         GitDir (set_remotes
                   (upsert MAIN_REMOTE_NAME remote_repo_url (remotes r)) r)]>
       fs,
     Ok repo_path).
Proof.
  intros repo_path Hdir.
  unfold Factory.get_git_repository, Factory.GitRepository_init.
  fold repo_path. rewrite Hdir.
  unfold Py.bind, Factory.on_repo. rewrite Hdir.
  now rewrite force_create_remote_eq.
Qed.

(** With nothing at the path the factory clones, and fails when the
    clone does. *)
Lemma get_git_repository_clone (fs : gmap string Dir)
  (remote_repo_url parent_dir_path : string) (name : option string) :
  let repo_path :=
    os_path.join parent_dir_path
      (Factory.repository_name host remote_repo_url name) in
  fs !! repo_path = None ->
  Factory.get_git_repository host remote_repo_url parent_dir_path name fs
  = match clone_result host remote_repo_url with
    | Some (names, c) =>
        (<[repo_path :=
             GitDir {| working_tree_dir := repo_path;
                       remotes := [mkRemote MAIN_REMOTE_NAME remote_repo_url];
                       refs := names; head := c; index := c;
                       working_tree := c; submodule_heads := ∅ |}]> fs,
         Ok repo_path)
    | None => (fs, Raise (RepositoryError "Failed to clone repository"))
    end.
Proof.
  intros repo_path Hdir.
  unfold Factory.get_git_repository, Factory.GitRepository_init.
  fold repo_path. rewrite Hdir.
  unfold Factory.clone_from, Py.try_except.
  destruct (truthy (http_proxy host));
    unfold Py.bind, Factory.git_clone, Factory.GitRepository_init;
    rewrite Hdir;
    (destruct (clone_result host remote_repo_url) as [[names c]|];
     [now rewrite lookup_insert_eq|reflexivity]).
Qed.

End FactoryProperties.

(** C3, as the claim states it, fails: on a directory that is not a git
    repository the factory ends in git's own [InvalidGitRepositoryError],
    not in a [RepositoryFormatError]. *)
Lemma invalid_format_error_is_not_converted :
  snd (Factory.get_git_repository Sample.host Sample.url "/work" None
         Sample.stale_tree)
  = Raise (InvalidGitRepositoryError "/work/example")
  /\ ~ (exists message,
          snd (Factory.get_git_repository Sample.host Sample.url "/work" None
                 Sample.stale_tree)
          = Raise (RepositoryFormatError message)).
Proof.
  split; [reflexivity|].
  intros (message & H).
  change (Raise (InvalidGitRepositoryError "/work/example")
          = Raise (RepositoryFormatError message) :> result string) in H.
  discriminate.
Qed.

(** C3, amended: when [repo_path = parent_dir/name] exists and is not a
    valid git repository, the factory fails with the
    [InvalidGitRepositoryError] of the git engine for that path, re-raised
    unchanged, and repairs nothing: the directory tree is as it was, the
    path is neither removed nor cloned into. *)
Theorem invalid_format_no_repair (host : Host) (fs : gmap string Dir)
  (remote_repo_url parent_dir_path : string) (name : option string) :
  let repo_path :=
    os_path.join parent_dir_path
      (Factory.repository_name host remote_repo_url name) in
  fs !! repo_path = Some NotARepository ->
  Factory.get_git_repository host remote_repo_url parent_dir_path name fs
  = (fs, Raise (InvalidGitRepositoryError repo_path)).
Proof.
  intros repo_path Hdir. now apply get_git_repository_invalid.
Qed.

Lemma invalid_format_no_repair_witness :
  Factory.get_git_repository Sample.host Sample.url "/work" None
    Sample.stale_tree
  = (Sample.stale_tree, Raise (InvalidGitRepositoryError "/work/example")).
Proof.
  apply (invalid_format_no_repair Sample.host Sample.stale_tree Sample.url
           "/work" None).
  reflexivity.
Defined.

(** C5: after a successful factory call the handle returned denotes a
    repository with exactly one remote named ["origin"], and the URL of
    that remote is the one requested in the call, whether the repository
    was reopened or freshly cloned. *)
Theorem factory_main_remote (host : Host) (fs fs' : gmap string Dir)
  (remote_repo_url parent_dir_path : string) (name : option string)
  (repo : string) :
  (forall (path : string) (r : Repo),
      fs !! path = Some (GitDir r) -> unique_remote_names r) ->
  Factory.get_git_repository host remote_repo_url parent_dir_path name fs
  = (fs', Ok repo) ->
  exists r,
    fs' !! repo = Some (GitDir r)
    /\ count_named MAIN_REMOTE_NAME (remotes r) = 1%nat
    /\ find (fun remote => String.eqb (remote_name remote) MAIN_REMOTE_NAME)
            (remotes r)
       = Some (mkRemote MAIN_REMOTE_NAME remote_repo_url).
Proof.
  intros Hunique Hcall.
  set (repo_path :=
         os_path.join parent_dir_path
           (Factory.repository_name host remote_repo_url name)).
  destruct (fs !! repo_path) as [[|r0]|] eqn:Hdir.
  - rewrite (get_git_repository_invalid host fs remote_repo_url
               parent_dir_path name Hdir) in Hcall.
    discriminate.
  - rewrite (get_git_repository_reopen host fs remote_repo_url parent_dir_path
               name r0 Hdir) in Hcall.
    injection Hcall as <- <-.
    eexists. split; [apply lookup_insert_eq|]. simpl. split.
    + apply count_named_upsert. exact (Hunique _ _ Hdir).
    + apply find_named_upsert.
  - rewrite (get_git_repository_clone host fs remote_repo_url parent_dir_path
               name Hdir) in Hcall.
    destruct (clone_result host remote_repo_url) as [[names c]|];
      [|discriminate].
    injection Hcall as <- <-.
    eexists. split; [apply lookup_insert_eq|]. simpl. split; reflexivity.
Qed.

Lemma factory_main_remote_witness :
  (exists r,
      fst (Factory.get_git_repository Sample.host Sample.url "/work" None
             Sample.mirrored_tree) !! "/work/example" = Some (GitDir r)
      /\ count_named "origin" (remotes r) = 1%nat
      /\ find (fun remote => String.eqb (remote_name remote) "origin")
              (remotes r)
         = Some (mkRemote "origin" Sample.url))
  /\ (exists r,
        fst (Factory.get_git_repository Sample.host Sample.url "/work" None
               Sample.empty_tree) !! "/work/example" = Some (GitDir r)
        /\ count_named "origin" (remotes r) = 1%nat
        /\ find (fun remote => String.eqb (remote_name remote) "origin")
                (remotes r)
           = Some (mkRemote "origin" Sample.url)).
Proof.
  split.
  - apply (factory_main_remote Sample.host Sample.mirrored_tree _ Sample.url
             "/work" None "/work/example").
    + intros path r Hdir. unfold Sample.mirrored_tree in Hdir.
      apply lookup_singleton_Some in Hdir as [_ Hr].
      injection Hr as <-. apply NoDup_singleton.
    + reflexivity.
  - apply (factory_main_remote Sample.host Sample.empty_tree _ Sample.url
             "/work" None "/work/example").
    + intros path r Hdir. unfold Sample.empty_tree in Hdir.
      rewrite lookup_empty in Hdir. discriminate.
    + reflexivity.
Defined.

(** ** [force_create_remote] *)

(** C6: [force_create_remote name url] is an idempotent upsert.  It never
    raises; a remote of that name bound to another URL is deleted and
    created again with the new URL, one bound to the same URL is left
    alone, and a missing one is created; afterwards exactly one remote
    carries the name, bound to [url]; a second call with the same
    arguments changes nothing. *)
Theorem force_create_remote_idempotent_upsert (r : Repo) (name url : string) :
  unique_remote_names r ->
  let r' := set_remotes (upsert name url (remotes r)) r in
  GitRepository.force_create_remote name url r = (r', Ok tt)
  /\ (forall previous : Remote,
        find (fun remote => String.eqb (remote_name remote) name) (remotes r)
        = Some previous ->
        remote_url previous <> url ->
        remotes r'
        = (List.filter (fun remote => negb (String.eqb (remote_name remote) name))
             (remotes r)
           ++ [mkRemote name url])%list)
  /\ (forall previous : Remote,
        find (fun remote => String.eqb (remote_name remote) name) (remotes r)
        = Some previous ->
        remote_url previous = url ->
        r' = r)
  /\ (find (fun remote => String.eqb (remote_name remote) name) (remotes r)
      = None ->
      remotes r' = (remotes r ++ [mkRemote name url])%list)
  /\ count_named name (remotes r') = 1%nat
  /\ find (fun remote => String.eqb (remote_name remote) name) (remotes r')
     = Some (mkRemote name url)
  /\ GitRepository.force_create_remote name url r' = (r', Ok tt).
Proof.
  intros Hunique r'. split; [apply force_create_remote_eq|].
  split; [|split; [|split; [|split; [|split]]]].
  - intros previous Hfind Hurl. subst r'. simpl. unfold upsert.
    rewrite Hfind. apply String.eqb_neq in Hurl. now rewrite Hurl.
  - intros previous Hfind Hurl. subst r'. unfold upsert.
    rewrite Hfind. apply String.eqb_eq in Hurl. rewrite Hurl.
    apply set_remotes_same.
  - intros Hfind. subst r'. simpl. unfold upsert. now rewrite Hfind.
  - apply count_named_upsert. exact Hunique.
  - apply find_named_upsert.
  - rewrite force_create_remote_eq. subst r'. simpl.
    now rewrite upsert_idempotent.
Qed.

Lemma force_create_remote_idempotent_upsert_witness :
  GitRepository.force_create_remote "origin" Sample.other_url Sample.repo
  = (set_remotes [mkRemote "origin" Sample.other_url] Sample.repo, Ok tt)
  /\ GitRepository.force_create_remote "origin" Sample.other_url
       (set_remotes [mkRemote "origin" Sample.other_url] Sample.repo)
     = (set_remotes [mkRemote "origin" Sample.other_url] Sample.repo, Ok tt).
Proof.
  destruct (force_create_remote_idempotent_upsert Sample.repo "origin"
              Sample.other_url) as (Hcall & _ & _ & _ & _ & _ & Hagain).
  - apply NoDup_singleton.
  - split; [exact Hcall|exact Hagain].
Defined.

Example force_create_remote_absent :
  fst (GitRepository.force_create_remote "push-remote" Sample.other_url
         Sample.repo)
  = set_remotes [mkRemote "origin" Sample.url;
                 mkRemote "push-remote" Sample.other_url] Sample.repo.
Proof. reflexivity. Qed.

Example force_create_remote_same_url :
  GitRepository.force_create_remote "origin" Sample.url Sample.repo
  = (Sample.repo, Ok tt).
Proof. reflexivity. Qed.

(** ** [push_head_commits] *)

Section Push.

Variable host : Host.

(** [git.PushInfo.ERROR & flags] is non-zero exactly when bit 10 of the
    flags is set. *)
Lemma error_bit_test (f : Z) :
  (Z.land PushInfo_ERROR f =? 0) = negb (Z.testbit f 10).
Proof.
  change PushInfo_ERROR with (2 ^ 10).
  destruct (Z.testbit f 10) eqn:Hbit; simpl.
  - apply Z.eqb_neq. intros Hzero.
    assert (Z.testbit (Z.land (2 ^ 10) f) 10 = true) as Hland.
    { rewrite Z.land_spec, Hbit. reflexivity. }
    rewrite Hzero in Hland. discriminate.
  - apply Z.eqb_eq. apply Z.bits_inj'. intros n Hn.
    rewrite Z.land_spec, Z.bits_0, Z.pow2_bits_eqb by lia.
    destruct (Z.eqb_spec 10 n) as [<-|_]; [now rewrite Hbit|reflexivity].
Qed.

(** The push goes to the upserted remote ["push-remote"], and its
    outcome is decided on the first entry of what it reports. *)
Lemma push_head_commits_eq (remote_repo_url remote_repo_branch : string)
  (r : Repo) :
  GitRepository.push_head_commits host remote_repo_url remote_repo_branch r
  = let pushing :=
      set_remotes (upsert "push-remote" remote_repo_url (remotes r)) r in
    (pushing,
     match push_result host pushing (mkRemote "push-remote" remote_repo_url)
             ("HEAD:refs/heads/" ++ remote_repo_branch) with
     | Ok (push_info :: _) =>
         if has_error_flag push_info
         then Raise (PushError ("Error pushing to remote reference "
                                ++ remote_ref push_info))
         else Ok tt
     | Ok [] => Raise IndexError
     | Raise e => Raise e
     end).
Proof.
  unfold GitRepository.push_head_commits, Py.bind at 1.
  rewrite force_create_remote_eq.
  unfold Py.bind at 1, GitRepository.remote.
  cbn [remotes set_remotes]. rewrite find_named_upsert.
  unfold Py.bind, GitRepository.push_first. cbv zeta.
  destruct (push_result host _ _ _) as [[|push_info rest]|e];
    try reflexivity.
  rewrite error_bit_test, negb_involutive. unfold has_error_flag.
  destruct (Z.testbit (flags push_info) 10); reflexivity.
Qed.

End Push.

(** C7: when the push itself does not throw and reports at least one
    entry, [push_head_commits] raises [PushError] exactly when the flags
    of the inspected entry include the error bit, and the message names
    the remote reference of that entry; without the error bit it returns
    normally. *)
Theorem push_error_flag_decides (host : Host) (r : Repo)
  (remote_repo_url remote_repo_branch : string)
  (push_info : PushInfo) (rest : list PushInfo) :
  let pushing :=
    set_remotes (upsert "push-remote" remote_repo_url (remotes r)) r in
  push_result host pushing (mkRemote "push-remote" remote_repo_url)
    ("HEAD:refs/heads/" ++ remote_repo_branch)
  = Ok (push_info :: rest) ->
  (has_error_flag push_info = true ->
   snd (GitRepository.push_head_commits host remote_repo_url
          remote_repo_branch r)
   = Raise (PushError ("Error pushing to remote reference "
                       ++ remote_ref push_info)))
  /\ (has_error_flag push_info = false ->
      snd (GitRepository.push_head_commits host remote_repo_url
             remote_repo_branch r)
      = Ok tt).
Proof.
  intros pushing Hpush. rewrite push_head_commits_eq. cbv zeta.
  fold pushing. rewrite Hpush. simpl.
  split; intros ->; reflexivity.
Qed.

Lemma push_error_flag_decides_witness :
  snd (GitRepository.push_head_commits Sample.rejecting Sample.other_url
         "devel" Sample.repo)
  = Raise (PushError "Error pushing to remote reference refs/heads/devel")
  /\ snd (GitRepository.push_head_commits Sample.host Sample.other_url
            "devel" Sample.repo)
     = Ok tt.
Proof.
  split.
  - apply (push_error_flag_decides Sample.rejecting Sample.repo
             Sample.other_url "devel" Sample.rejected []); reflexivity.
  - apply (push_error_flag_decides Sample.host Sample.repo
             Sample.other_url "devel" Sample.accepted []); reflexivity.
Defined.



(** ** The chroot initialiser *)

Section Initialize.

Variable CONF : Mock.Conf.
Variable command_ok : string -> bool.

(** Every execution of [initialize]: the lock is taken before the first
    command and is held while the commands run; the release is the last
    statement and is reached only when both commands succeed. *)
Lemma initialize_eq (self : Mock.Mock) (w : Mock.World) :
  let path := Mock.LOCK_FILE_PATH CONF in
  let scrub :=
    Mock.str_join " " (Mock.common_mock_args self ++ ["--scrub all"]) in
  let init :=
    Mock.str_join " " (Mock.common_mock_args self ++ ["--init"]) in
  Mock.initialize CONF command_ok self w
  = if command_ok scrub then
      if command_ok init then
        ({| Mock.lock_held := false;
            Mock.trace :=
              Mock.trace w
              ++ [Mock.Open path; Mock.LockEx path; Mock.Run scrub;
                  Mock.Run init; Mock.Unlock path] |},
         Ok tt)
      else
        ({| Mock.lock_held := true;
            Mock.trace :=
              Mock.trace w
              ++ [Mock.Open path; Mock.LockEx path; Mock.Run scrub;
                  Mock.Run init] |},
         Raise (ExecutionError init))
    else
      ({| Mock.lock_held := true;
          Mock.trace :=
            Mock.trace w
            ++ [Mock.Open path; Mock.LockEx path; Mock.Run scrub] |},
       Raise (ExecutionError scrub)).
Proof.
  intros path scrub init.
  unfold Mock.initialize, Mock.run_command, Mock.utils_run_command,
    Mock.open_w, Mock.emit, Mock.lockf_EX, Mock.lockf_UN,
    Py.bind, Py.modify, Py.ret, Py.raise.
  fold path scrub init. cbn [Mock.trace Mock.lock_held].
  destruct (command_ok scrub); [destruct (command_ok init)|];
    cbn [Mock.trace Mock.lock_held];
    repeat rewrite <- app_assoc; reflexivity.
Qed.

End Initialize.

(** C8: the lock is taken before the two commands and held while they
    run, but it is not released on every execution.  When the first
    command fails, and likewise when the second one does, the error
    reaches the caller with the lock still held: the trace of the call
    has no release, which [initialize] performs only after both commands
    have succeeded. *)
Theorem initialize_failure_skips_release :
  Mock.initialize Sample.conf Sample.scrub_fails Sample.mock Sample.idle
  = ({| Mock.lock_held := true;
        Mock.trace :=
          [Mock.Open "/var/lib/builds/mock.lock";
           Mock.LockEx "/var/lib/builds/mock.lock";
           Mock.Run "/usr/bin/mock -r epel-7-ppc64le  --uniqueext build-1 --scrub all"] |},
     Raise (ExecutionError
              "/usr/bin/mock -r epel-7-ppc64le  --uniqueext build-1 --scrub all"))
  /\ Mock.initialize Sample.conf Sample.init_fails Sample.mock Sample.idle
     = ({| Mock.lock_held := true;
           Mock.trace :=
             [Mock.Open "/var/lib/builds/mock.lock";
              Mock.LockEx "/var/lib/builds/mock.lock";
              Mock.Run "/usr/bin/mock -r epel-7-ppc64le  --uniqueext build-1 --scrub all";
              Mock.Run "/usr/bin/mock -r epel-7-ppc64le  --uniqueext build-1 --init"] |},
        Raise (ExecutionError
                 "/usr/bin/mock -r epel-7-ppc64le  --uniqueext build-1 --init"))
  /\ Mock.initialize Sample.conf (fun _ => true) Sample.mock Sample.idle
     = ({| Mock.lock_held := false;
           Mock.trace :=
             [Mock.Open "/var/lib/builds/mock.lock";
              Mock.LockEx "/var/lib/builds/mock.lock";
              Mock.Run "/usr/bin/mock -r epel-7-ppc64le  --uniqueext build-1 --scrub all";
              Mock.Run "/usr/bin/mock -r epel-7-ppc64le  --uniqueext build-1 --init";
              Mock.Unlock "/var/lib/builds/mock.lock"] |},
        Ok tt).
Proof.
  repeat split; rewrite initialize_eq; reflexivity.
Qed.

(** * Further properties of the code *)

(** ** [checkout] beyond the resolution *)

Section CheckoutOutcomes.

Variable host : Host.

Import GitRepository.

(** A cascade in which every update succeeds: each declared submodule is
    at its recorded commit, other paths are as before. *)
Lemma for_each_submodule_update_ok (subs : list Submodule) (r : Repo) :
  (forall (r' : Repo) (s : Submodule),
      s ∈ subs -> submodule_update_ok host r' s = true) ->
  exists r',
    Py.for_each subs (submodule_update host) r = (r', Ok tt)
    /\ (forall p : string,
          p ∉ List.map submodule_path subs ->
          submodule_heads r' !! p = submodule_heads r !! p)
    /\ (NoDup (List.map submodule_path subs) ->
        forall s : Submodule,
          s ∈ subs ->
          submodule_heads r' !! submodule_path s = Some (submodule_commit s)).
Proof.
  revert r. induction subs as [|s subs IH]; intros r Hok.
  - exists r. split; [reflexivity|]. split; [reflexivity|].
    intros _ s Hs. now apply elem_of_nil in Hs.
  - destruct (IH (set_submodule_head (submodule_path s) (submodule_commit s) r))
      as (r' & Hrun & Hother & Hdecl).
    { intros r'' s' Hs'. apply Hok. now apply list_elem_of_further. }
    exists r'. split; [|split].
    + simpl. unfold Py.bind, submodule_update at 1.
      rewrite (Hok r s) by apply list_elem_of_here. exact Hrun.
    + intros p Hp. simpl in Hp. apply not_elem_of_cons in Hp as [Hne Hp].
      rewrite (Hother p Hp). simpl. now apply lookup_insert_ne.
    + simpl. intros Hnd s' Hs'.
      apply NoDup_cons in Hnd as [Hfresh Hnd].
      apply elem_of_cons in Hs' as [->|Hs'].
      * rewrite (Hother _ Hfresh). simpl. apply lookup_insert_eq.
      * now apply Hdecl.
Qed.

(** A cascade that meets a failing update stops there: the submodules
    after it are not touched. *)
Lemma for_each_submodule_update_stops (before after : list Submodule)
  (s : Submodule) (r : Repo) :
  (forall (r' : Repo) (s' : Submodule),
      s' ∈ before -> submodule_update_ok host r' s' = true) ->
  (forall r' : Repo, submodule_update_ok host r' s = false) ->
  exists r',
    Py.for_each (before ++ s :: after) (submodule_update host) r
    = (r', Raise GitCommandError)
    /\ (forall p : string,
          p ∉ List.map submodule_path before ->
          submodule_heads r' !! p = submodule_heads r !! p).
Proof.
  revert r. induction before as [|b before IH]; intros r Hok Hfail.
  - exists r. split; [|reflexivity].
    simpl. unfold Py.bind, submodule_update at 1. now rewrite Hfail.
  - destruct (IH (set_submodule_head (submodule_path b) (submodule_commit b) r))
      as (r' & Hrun & Hother); [|exact Hfail|].
    { intros r'' s' Hs'. apply Hok. now apply list_elem_of_further. }
    exists r'. split.
    + simpl. unfold Py.bind, submodule_update at 1.
      rewrite (Hok r b) by apply list_elem_of_here. exact Hrun.
    + intros p Hp. simpl in Hp. apply not_elem_of_cons in Hp as [Hne Hp].
      rewrite (Hother p Hp). simpl. now apply lookup_insert_ne.
Qed.

Lemma for_each_submodule_update_dir (subs : list Submodule)
  (r r' : Repo) (out : result unit) :
  Py.for_each subs (submodule_update host) r = (r', out) ->
  working_tree_dir r' = working_tree_dir r.
Proof.
  revert r. induction subs as [|s subs IH]; intros r; simpl.
  - now intros [= <- _].
  - unfold Py.bind, submodule_update at 1.
    destruct (submodule_update_ok host r s).
    + intros H. now apply IH in H.
    + now intros [= <- _].
Qed.

End CheckoutOutcomes.

(** A [checkout] in which every step succeeds ends with [HEAD], the index
    and the working tree at the resolved commit, the fetched names in
    place, and every submodule declared at that commit at its recorded
    commit. *)
Theorem checkout_success (host : Host) (r : Repo) (ref_name : string)
  (refspecs : option (list string)) (main_remote : Remote)
  (names : gmap string Commit) (commit_id : Commit) :
  find (fun remote => String.eqb (remote_name remote) MAIN_REMOTE_NAME)
       (remotes r) = Some main_remote ->
  fetch_result host r main_remote refspecs = Some names ->
  first_resolving names (GitRepository.candidates (remotes r) ref_name)
  = Some commit_id ->
  reset_ok host (set_head commit_id (set_refs names r)) = true ->
  (forall (r' : Repo) (s : Submodule),
      s ∈ submodules_at host commit_id ->
      submodule_update_ok host r' s = true) ->
  NoDup (List.map submodule_path (submodules_at host commit_id)) ->
  exists r',
    GitRepository.checkout host ref_name refspecs r = (r', Ok tt)
    /\ head r' = commit_id
    /\ index r' = commit_id
    /\ working_tree r' = commit_id
    /\ refs r' = names
    /\ (forall s : Submodule,
          s ∈ submodules_at host commit_id ->
          submodule_heads r' !! submodule_path s = Some (submodule_commit s)).
Proof.
  intros Hfind Hfetch Hres Hreset Hok Hnd.
  rewrite checkout_eq, Hfind, Hfetch, Hres. cbv zeta. rewrite Hreset.
  unfold GitRepository._update_submodules, Py.bind, Py.gets.
  cbn [head set_trees].
  destruct (for_each_submodule_update_ok host (submodules_at host commit_id)
              (set_trees commit_id (set_head commit_id (set_refs names r))) Hok)
    as (r' & Hrun & _ & Hdecl).
  exists r'. split; [exact Hrun|].
  apply for_each_submodule_update_frame in Hrun as (H1 & H2 & H3 & _ & H5).
  rewrite H1, H2, H3, H5. repeat split. now apply Hdecl.
Qed.

Lemma checkout_success_witness :
  exists r',
    GitRepository.checkout Sample.host "release-1.0" None Sample.repo
    = (r', Ok tt)
    /\ head r' = "c1" /\ index r' = "c1" /\ working_tree r' = "c1"
    /\ refs r' = Sample.names
    /\ (forall s : Submodule,
          s ∈ [Sample.vendor_lib] ->
          submodule_heads r' !! submodule_path s = Some (submodule_commit s)).
Proof.
  apply (checkout_success Sample.host Sample.repo "release-1.0" None
           (mkRemote "origin" Sample.url) Sample.names "c1").
  - reflexivity.
  - reflexivity.
  - reflexivity.
  - reflexivity.
  - reflexivity.
  - apply NoDup_singleton.
Defined.

(** [checkout] on a repository without a remote named ["origin"] raises
    [ValueError] before anything is fetched and leaves the repository as
    it was. *)
Theorem checkout_without_main_remote (host : Host) (r : Repo)
  (ref_name : string) (refspecs : option (list string)) :
  GitRepository.any_named MAIN_REMOTE_NAME (remotes r) = false ->
  GitRepository.checkout host ref_name refspecs r = (r, Raise ValueError).
Proof.
  intros Habsent.
  now rewrite checkout_eq, (not_any_named_find _ _ Habsent).
Qed.

Lemma checkout_without_main_remote_witness :
  GitRepository.checkout Sample.host "release-1.0" None
    (set_remotes [mkRemote "upstream" Sample.url] Sample.repo)
  = (set_remotes [mkRemote "upstream" Sample.url] Sample.repo,
     Raise ValueError).
Proof.
  apply (checkout_without_main_remote Sample.host
           (set_remotes [mkRemote "upstream" Sample.url] Sample.repo)
           "release-1.0" None).
  reflexivity.
Defined.

(** Whatever its outcome, [checkout] never changes the remotes of the
    repository nor the directory it lives in. *)
Theorem checkout_keeps_remotes (host : Host) (r : Repo) (ref_name : string)
  (refspecs : option (list string)) :
  remotes (fst (GitRepository.checkout host ref_name refspecs r)) = remotes r
  /\ working_tree_dir (fst (GitRepository.checkout host ref_name refspecs r))
     = working_tree_dir r.
Proof.
  rewrite checkout_eq.
  destruct (find _ (remotes r)) as [main_remote|]; [|now split].
  destruct (fetch_result host r main_remote refspecs) as [names|];
    [|now split].
  cbv zeta.
  destruct (first_resolving names (GitRepository.candidates (remotes r) ref_name))
    as [c|]; [|now split].
  destruct (reset_ok host (set_head c (set_refs names r))); [|now split].
  destruct (GitRepository._update_submodules host
              (set_trees c (set_head c (set_refs names r))))
    as [r' out] eqn:E.
  split.
  - apply _update_submodules_frame in E as (_ & _ & _ & Hremotes & _).
    exact Hremotes.
  - unfold GitRepository._update_submodules, Py.bind, Py.gets in E.
    now apply for_each_submodule_update_dir in E.
Qed.

(** When the update of a submodule fails, [checkout] ends in the
    [GitCommandError] of that update, not in a [RepositoryError]; [HEAD],
    the index and the working tree are already at the new commit, and the
    submodules enumerated after the failing one have not been touched. *)
Theorem checkout_submodule_failure (host : Host) (r : Repo)
  (ref_name : string) (refspecs : option (list string))
  (main_remote : Remote) (names : gmap string Commit) (commit_id : Commit)
  (before after : list Submodule) (failing : Submodule) :
  find (fun remote => String.eqb (remote_name remote) MAIN_REMOTE_NAME)
       (remotes r) = Some main_remote ->
  fetch_result host r main_remote refspecs = Some names ->
  first_resolving names (GitRepository.candidates (remotes r) ref_name)
  = Some commit_id ->
  reset_ok host (set_head commit_id (set_refs names r)) = true ->
  submodules_at host commit_id = (before ++ failing :: after)%list ->
  (forall (r' : Repo) (s : Submodule),
      s ∈ before -> submodule_update_ok host r' s = true) ->
  (forall r' : Repo, submodule_update_ok host r' failing = false) ->
  exists r',
    GitRepository.checkout host ref_name refspecs r
    = (r', Raise GitCommandError)
    /\ head r' = commit_id
    /\ index r' = commit_id
    /\ working_tree r' = commit_id
    /\ (forall p : string,
          p ∉ List.map submodule_path before ->
          submodule_heads r' !! p = submodule_heads r !! p).
Proof.
  intros Hfind Hfetch Hres Hreset Hsubs Hok Hfail.
  rewrite checkout_eq, Hfind, Hfetch, Hres. cbv zeta. rewrite Hreset.
  unfold GitRepository._update_submodules, Py.bind, Py.gets.
  destruct (for_each_submodule_update_stops host before after failing
              (set_trees commit_id (set_head commit_id (set_refs names r)))
              Hok Hfail)
    as (r' & Hrun & Hother).
  rewrite <- Hsubs in Hrun.
  exists r'. split; [exact Hrun|].
  apply for_each_submodule_update_frame in Hrun as (H1 & H2 & H3 & _ & _).
  rewrite H1, H2, H3. repeat split. exact Hother.
Qed.

Lemma checkout_submodule_failure_witness :
  exists r',
    GitRepository.checkout Scenario.submodule_fails "release-1.0" None
      Sample.repo
    = (r', Raise GitCommandError)
    /\ head r' = "c1" /\ index r' = "c1" /\ working_tree r' = "c1"
    /\ (forall p : string,
          p ∉ ["vendor/lib"] ->
          submodule_heads r' !! p = (∅ : gmap string Commit) !! p).
Proof.
  apply (checkout_submodule_failure Scenario.submodule_fails Sample.repo
           "release-1.0" None (mkRemote "origin" Sample.url) Sample.names "c1"
           [Sample.vendor_lib] [Scenario.tools] Scenario.broken).
  - reflexivity.
  - reflexivity.
  - reflexivity.
  - reflexivity.
  - reflexivity.
  - intros r' s Hs. apply list_elem_of_singleton in Hs. now subst s.
  - reflexivity.
Defined.

(** ** Resolution of a name that starts with a slash *)

Section AbsoluteNames.

Import GitRepository.

Lemma join_absolute_name (a b : string) :
  os_path.startswith_sep b = true -> os_path.join a b = b.
Proof. unfold os_path.join. now intros ->. Qed.

Lemma first_resolving_same (names : gmap string Commit) (n : string)
  (l : list string) :
  Forall (fun m => m = n) l ->
  first_resolving names (l ++ [n]) = names !! n.
Proof.
  induction 1 as [|m l -> _ IH]; simpl.
  - now destruct (names !! n).
  - rewrite IH. now destruct (names !! n).
Qed.

End AbsoluteNames.

(** For a reference name that starts with a slash [os.path.join] drops
    the remote name, so every candidate is the bare name: what the name
    resolves to by itself decides, whatever the remotes are, and the
    repository is not changed. *)
Theorem absolute_name_skips_remotes (r : Repo) (ref_name : string) :
  os_path.startswith_sep ref_name = true ->
  GitRepository._get_reference ref_name r
  = (r, found_or_raise ref_name (refs r !! ref_name)).
Proof.
  intros Habs. rewrite _get_reference_eq. f_equal. f_equal.
  unfold GitRepository.candidates. apply first_resolving_same.
  apply Forall_forall. intros m Hm.
  apply list_elem_of_In, in_map_iff in Hm as (remote & <- & _).
  now apply join_absolute_name.
Qed.

Lemma absolute_name_skips_remotes_witness :
  GitRepository._get_reference "/devel" Scenario.two_remotes
  = (Scenario.two_remotes, Ok "c2").
Proof.
  apply (absolute_name_skips_remotes Scenario.two_remotes "/devel").
  reflexivity.
Defined.

(** ** Remotes: what an upsert leaves alone *)

Section OtherRemotes.

Import GitRepository.




End OtherRemotes.



(** [force_create_remote] keeps the names of the remotes unique. *)
Theorem force_create_remote_keeps_unique (r : Repo) (name url : string) :
  unique_remote_names r ->
  unique_remote_names (fst (GitRepository.force_create_remote name url r)).
Proof.
  intros Hunique. rewrite force_create_remote_eq.
  unfold unique_remote_names. cbn [fst remotes set_remotes].
  now apply upsert_unique.
Qed.

Lemma force_create_remote_keeps_unique_witness :
  unique_remote_names
    (fst (GitRepository.force_create_remote "push-remote" Sample.url
            Scenario.two_remotes)).
Proof.
  apply (force_create_remote_keeps_unique Scenario.two_remotes "push-remote"
           Sample.url).
  unfold unique_remote_names. simpl.
  apply NoDup_cons. split; [|apply NoDup_singleton].
  intros H. apply list_elem_of_singleton in H. discriminate.
Defined.

(** ** [push_head_commits]: what a push leaves behind *)



(** When the push itself throws, [push_head_commits] lets that exception
    through as it is: it is not turned into a [PushError], and the remote
    ["push-remote"] created for the push stays. *)
Theorem push_transport_error_propagates (host : Host) (r : Repo)
  (remote_repo_url remote_repo_branch : string) (e : exn) :
  let pushing :=
    set_remotes (upsert "push-remote" remote_repo_url (remotes r)) r in
  push_result host pushing (mkRemote "push-remote" remote_repo_url)
    ("HEAD:refs/heads/" ++ remote_repo_branch)
  = Raise e ->
  GitRepository.push_head_commits host remote_repo_url remote_repo_branch r
  = (pushing, Raise e).
Proof.
  intros pushing Hpush. rewrite push_head_commits_eq. cbv zeta.
  fold pushing. now rewrite Hpush.
Qed.

Lemma push_transport_error_propagates_witness :
  GitRepository.push_head_commits Sample.offline Sample.other_url "devel"
    Sample.repo
  = (set_remotes [mkRemote "origin" Sample.url;
                  mkRemote "push-remote" Sample.other_url] Sample.repo,
     Raise GitCommandError).
Proof.
  apply (push_transport_error_propagates Sample.offline Sample.repo
           Sample.other_url "devel" GitCommandError).
  reflexivity.
Defined.

(** ** The factory and the directory tree *)

Section FactoryTree.

Variable host : Host.

(** The three ways a call of the factory can go, by what lies at the
    path. *)
Lemma get_git_repository_cases (fs : gmap string Dir)
  (remote_repo_url parent_dir_path : string) (name : option string) :
  let repo_path :=
    os_path.join parent_dir_path
      (Factory.repository_name host remote_repo_url name) in
  Factory.get_git_repository host remote_repo_url parent_dir_path name fs
  = match fs !! repo_path with
    | Some NotARepository => (fs, Raise (InvalidGitRepositoryError repo_path))
    | Some (GitDir r) =>
        (<[repo_path :=
             GitDir (set_remotes
                       (upsert MAIN_REMOTE_NAME remote_repo_url (remotes r)) r)]>
           fs,
         Ok repo_path)
    | None =>
        match clone_result host remote_repo_url with
        | Some (names, c) =>
            (<[repo_path :=
                 GitDir {| working_tree_dir := repo_path;
                           remotes :=
                             [mkRemote MAIN_REMOTE_NAME remote_repo_url];
                           refs := names; head := c; index := c;
                           working_tree := c; submodule_heads := ∅ |}]> fs,
             Ok repo_path)
        | None => (fs, Raise (RepositoryError "Failed to clone repository"))
        end
    end.
Proof.
  intros repo_path.
  destruct (fs !! repo_path) as [[|r]|] eqn:Hdir.
  - now apply get_git_repository_invalid.
  - now apply get_git_repository_reopen.
  - now apply get_git_repository_clone.
Qed.

Lemma upsert_bound (name url : string) :
  upsert name url [mkRemote name url] = [mkRemote name url].
Proof.
  unfold upsert. simpl. now rewrite !String.eqb_refl.
Qed.

End FactoryTree.



(** The factory keeps the invariant of the tree: when the remote names of
    every repository in it are unique before a call, they are so after
    it, whatever the outcome. *)
Theorem factory_keeps_unique_names (host : Host) (fs : gmap string Dir)
  (remote_repo_url parent_dir_path : string) (name : option string) :
  (forall (path : string) (r : Repo),
      fs !! path = Some (GitDir r) -> unique_remote_names r) ->
  forall (path : string) (r : Repo),
    fst (Factory.get_git_repository host remote_repo_url parent_dir_path
           name fs) !! path
    = Some (GitDir r) ->
    unique_remote_names r.
Proof.
  intros Hunique path r. rewrite get_git_repository_cases. cbv zeta.
  set (repo_path :=
         os_path.join parent_dir_path
           (Factory.repository_name host remote_repo_url name)).
  destruct (fs !! repo_path) as [[|r0]|] eqn:Hdir; cbn [fst].
  - apply Hunique.
  - destruct (decide (repo_path = path)) as [<-|Hne].
    + rewrite lookup_insert_eq. intros [= <-].
      unfold unique_remote_names. cbn [remotes set_remotes].
      apply upsert_unique. exact (Hunique _ _ Hdir).
    + rewrite lookup_insert_ne by exact Hne. apply Hunique.
  - destruct (clone_result host remote_repo_url) as [[names c]|]; cbn [fst];
      [|apply Hunique].
    destruct (decide (repo_path = path)) as [<-|Hne].
    + rewrite lookup_insert_eq. intros [= <-].
      unfold unique_remote_names. simpl. apply NoDup_singleton.
    + rewrite lookup_insert_ne by exact Hne. apply Hunique.
Qed.

Lemma factory_keeps_unique_names_witness :
  fst (Factory.get_git_repository Sample.host Sample.url "/work" None
         Sample.mirrored_tree) !! "/work/example"
  = Some (GitDir (set_remotes [mkRemote "origin" Sample.url] Sample.repo))
  /\ unique_remote_names
       (set_remotes [mkRemote "origin" Sample.url] Sample.repo).
Proof.
  split; [reflexivity|].
  apply (factory_keeps_unique_names Sample.host Sample.mirrored_tree
           Sample.url "/work" None) with (path := "/work/example").
  - intros path r Hdir. unfold Sample.mirrored_tree in Hdir.
    apply lookup_singleton_Some in Hdir as [_ Hr].
    injection Hr as <-. apply NoDup_singleton.
  - reflexivity.
Defined.



(** A second call of the factory with the same arguments, after a first
    one that succeeded, returns the same handle and leaves the tree as
    the first call left it. *)
Theorem factory_idempotent (host : Host) (fs fs' : gmap string Dir)
  (remote_repo_url parent_dir_path : string) (name : option string)
  (repo : string) :
  Factory.get_git_repository host remote_repo_url parent_dir_path name fs
  = (fs', Ok repo) ->
  Factory.get_git_repository host remote_repo_url parent_dir_path name fs'
  = (fs', Ok repo).
Proof.
  rewrite (get_git_repository_cases host fs). cbv zeta.
  set (repo_path :=
         os_path.join parent_dir_path
           (Factory.repository_name host remote_repo_url name)).
  destruct (fs !! repo_path) as [[|r0]|] eqn:Hdir; [discriminate| |].
  - intros [= <- <-].
    rewrite get_git_repository_cases. fold repo_path.
    rewrite lookup_insert_eq. cbn [remotes set_remotes].
    rewrite upsert_idempotent. now rewrite insert_insert_eq.
  - destruct (clone_result host remote_repo_url) as [[names c]|];
      [|discriminate].
    intros [= <- <-].
    rewrite get_git_repository_cases. fold repo_path.
    rewrite lookup_insert_eq. cbn [remotes set_remotes].
    rewrite upsert_bound. now rewrite insert_insert_eq.
Qed.

Lemma factory_idempotent_witness :
  Factory.get_git_repository Sample.host Sample.url "/work" None
    (fst (Factory.get_git_repository Sample.host Sample.url "/work" None
            Sample.empty_tree))
  = (fst (Factory.get_git_repository Sample.host Sample.url "/work" None
            Sample.empty_tree),
     Ok "/work/example").
Proof.
  apply (factory_idempotent Sample.host Sample.empty_tree _ Sample.url
           "/work" None "/work/example").
  reflexivity.
Defined.

(** A [name] that starts with a slash makes [os.path.join] drop
    [parent_dir_path]: a successful call returns [name] itself as the
    path of the repository, which then does not lie under the parent
    directory asked for. *)
Theorem factory_absolute_name (host : Host) (fs fs' : gmap string Dir)
  (remote_repo_url parent_dir_path name repo : string) :
  os_path.startswith_sep name = true ->
  Factory.get_git_repository host remote_repo_url parent_dir_path
    (Some name) fs
  = (fs', Ok repo) ->
  repo = name /\ exists r, fs' !! name = Some (GitDir r).
Proof.
  intros Habs. rewrite get_git_repository_cases. cbv zeta.
  assert (os_path.join parent_dir_path
            (Factory.repository_name host remote_repo_url (Some name))
          = name) as ->.
  { unfold Factory.repository_name.
    destruct name as [|c name]; [discriminate|]. simpl os_path.is_empty.
    cbv iota. now apply join_absolute_name. }
  destruct (fs !! name) as [[|r0]|]; [discriminate| |].
  - intros [= <- <-]. split; [reflexivity|].
    eexists. apply lookup_insert_eq.
  - destruct (clone_result host remote_repo_url) as [[names c]|];
      [|discriminate].
    intros [= <- <-]. split; [reflexivity|].
    eexists. apply lookup_insert_eq.
Qed.

Lemma factory_absolute_name_witness :
  "/srv/example" = "/srv/example"
  /\ exists r,
       fst (Factory.get_git_repository Sample.host Sample.url "/work"
              (Some "/srv/example") Sample.empty_tree) !! "/srv/example"
       = Some (GitDir r).
Proof.
  apply (factory_absolute_name Sample.host Sample.empty_tree _ Sample.url
           "/work" "/srv/example" "/srv/example").
  - reflexivity.
  - reflexivity.
Defined.

(** The factory hands [checkout] what it needs: on the repository behind
    a handle the factory returned, [checkout] never ends in the
    [ValueError] of a missing main remote. *)
Theorem factory_then_checkout (host : Host) (fs fs' : gmap string Dir)
  (remote_repo_url parent_dir_path : string) (name : option string)
  (repo : string) :
  Factory.get_git_repository host remote_repo_url parent_dir_path name fs
  = (fs', Ok repo) ->
  exists r,
    fs' !! repo = Some (GitDir r)
    /\ forall (engine : Host) (ref_name : string)
              (refspecs : option (list string)),
         snd (GitRepository.checkout engine ref_name refspecs r)
         <> Raise ValueError.
Proof.
  rewrite get_git_repository_cases. cbv zeta.
  set (repo_path :=
         os_path.join parent_dir_path
           (Factory.repository_name host remote_repo_url name)).
  assert (forall r : Repo,
             find (fun remote => String.eqb (remote_name remote) MAIN_REMOTE_NAME)
                  (remotes r)
             = Some (mkRemote MAIN_REMOTE_NAME remote_repo_url) ->
             forall (engine : Host) (ref_name : string)
                    (refspecs : option (list string)),
               snd (GitRepository.checkout engine ref_name refspecs r)
               <> Raise ValueError) as Hcheckout.
  { intros r Hfind engine ref_name refspecs.
    rewrite checkout_eq, Hfind.
    destruct (fetch_result engine r _ refspecs) as [names|]; [|discriminate].
    cbv zeta.
    destruct (first_resolving names _) as [c|]; [|discriminate].
    destruct (reset_ok engine _); [|discriminate].
    unfold GitRepository._update_submodules, Py.bind, Py.gets.
    generalize (set_trees c (set_head c (set_refs names r))) at 2 as r0.
    generalize (submodules_at engine
                  (head (set_trees c (set_head c (set_refs names r))))) as subs.
    induction subs as [|s subs IH]; intros r0; simpl; [discriminate|].
    unfold Py.bind, GitRepository.submodule_update at 1.
    destruct (submodule_update_ok engine r0 s); [apply IH|discriminate]. }
  destruct (fs !! repo_path) as [[|r0]|]; [discriminate| |].
  - intros [= <- <-]. eexists. split; [apply lookup_insert_eq|].
    apply Hcheckout. cbn [remotes set_remotes]. apply find_named_upsert.
  - destruct (clone_result host remote_repo_url) as [[names c]|];
      [|discriminate].
    intros [= <- <-]. eexists. split; [apply lookup_insert_eq|].
    apply Hcheckout. simpl. reflexivity.
Qed.

Lemma factory_then_checkout_witness :
  exists r,
    fst (Factory.get_git_repository Sample.host Sample.url "/work" None
           Sample.empty_tree) !! "/work/example" = Some (GitDir r)
    /\ forall (engine : Host) (ref_name : string)
              (refspecs : option (list string)),
         snd (GitRepository.checkout engine ref_name refspecs r)
         <> Raise ValueError.
Proof.
  apply (factory_then_checkout Sample.host Sample.empty_tree _ Sample.url
           "/work" None "/work/example").
  reflexivity.
Defined.

(** ** Subversion working copies *)

Section Subversion.

Variable run_effect :
  string -> option string -> gset string -> gset string * bool.

(** One command, run and recorded. *)
Lemma run_command_eq (cmd : string) (cwd : option string) (w : Shell.World) :
  Shell.run_command run_effect cmd cwd w
  = ({| Shell.paths := fst (run_effect cmd cwd (Shell.paths w));
        Shell.trace := Shell.trace w ++ [Shell.Command cmd cwd] |},
     if snd (run_effect cmd cwd (Shell.paths w)) then Ok tt
     else Raise (ExecutionError cmd)).
Proof.
  unfold Shell.run_command.
  now destruct (run_effect cmd cwd (Shell.paths w)).
Qed.

End Subversion.

(** [SvnRepository.checkout] runs the update and then the checkout of the
    revision, both in the working copy, whatever the update does: a
    failed update is swallowed, and the call succeeds exactly when the
    checkout of the revision does, raising [RepositoryError] with the
    revision and the name of the working copy otherwise. *)
Theorem svn_checkout_swallows_update
  (run_effect : string -> option string -> gset string -> gset string * bool)
  (self : SvnRepository.Svn) (revision : string) (w : Shell.World) :
  let cwd := Some (SvnRepository.working_copy_dir self) in
  let command :=
    "svn checkout " ++ SvnRepository.url self ++ "@" ++ revision ++ " ." in
  let updated := fst (run_effect "svn update" cwd (Shell.paths w)) in
  SvnRepository.checkout run_effect self revision w
  = ({| Shell.paths := fst (run_effect command cwd updated);
        Shell.trace :=
          Shell.trace w
          ++ [Shell.Command "svn update" cwd; Shell.Command command cwd] |},
     if snd (run_effect command cwd updated) then Ok tt
     else Raise (RepositoryError
                   ("Could not find revision " ++ revision ++ " at "
                    ++ SvnRepository.name self ++ " repository"))).
Proof.
  intros cwd command updated.
  unfold SvnRepository.checkout, Py.bind, Py.try_except.
  rewrite run_command_eq. fold cwd.
  destruct (snd (run_effect "svn update" cwd (Shell.paths w)));
    unfold Py.ret; rewrite run_command_eq; fold cwd command;
    cbn [Shell.paths Shell.trace]; fold updated;
    (destruct (snd (run_effect command cwd updated));
     unfold Py.raise; cbn [Shell.paths Shell.trace];
     now rewrite <- app_assoc).
Qed.

(** A path that exists is taken for the working copy as it is:
    [get_svn_repository] runs no command and binds the handle to the URL
    it was given. *)
Theorem get_svn_repository_existing (host : Host)
  (urlparse : string -> SvnRepository.ParsedUrl)
  (run_effect : string -> option string -> gset string -> gset string * bool)
  (remote_repo_url repo_path : string) (w : Shell.World) :
  repo_path ∈ Shell.paths w ->
  SvnRepository.get_svn_repository host urlparse run_effect remote_repo_url
    repo_path w
  = (w, Ok (SvnRepository.mkSvn remote_repo_url repo_path)).
Proof.
  intros Hexists.
  unfold SvnRepository.get_svn_repository, Py.bind, Shell.exists_.
  now rewrite bool_decide_eq_true_2.
Qed.

Lemma get_svn_repository_existing_witness :
  SvnRepository.get_svn_repository Sample.host Scenario.parse_proxy
    Scenario.all_fail "https://elsewhere/svn/legacy" "/work/legacy"
    Scenario.with_legacy
  = (Scenario.with_legacy,
     Ok (SvnRepository.mkSvn "https://elsewhere/svn/legacy" "/work/legacy")).
Proof.
  apply (get_svn_repository_existing Sample.host Scenario.parse_proxy
           Scenario.all_fail "https://elsewhere/svn/legacy" "/work/legacy"
           Scenario.with_legacy).
  unfold Scenario.with_legacy. cbn [Shell.paths].
  apply elem_of_singleton_2. reflexivity.
Defined.



(** ** [archive] *)

Section Archiving.

Variable run_effect :
  string -> option string -> gset string -> gset string * bool.
Variable archive_error : string -> option string -> option exn.

Hypothesis writes_succeed :
  forall (file : string) (source : option string),
    archive_error file source = None.

(** The loop over the submodules writes one tar file each, in
    enumeration order, and collects their paths in that order. *)
Lemma archive_submodules_eq (archive_name build_dir : string)
  (subs : list Submodule) (acc : list string) (w : Shell.World) :
  exists w',
    Archive.archive_submodules archive_error archive_name build_dir subs acc w
    = (w',
       Ok (acc ++ List.map
                    (Archive.submodule_archive_file_path archive_name build_dir)
                    subs)%list)
    /\ Shell.trace w'
       = (Shell.trace w
          ++ List.map (submodule_tar archive_name build_dir) subs)%list.
Proof.
  revert acc w. induction subs as [|s subs IH]; intros acc w.
  - exists w. simpl. unfold Py.ret. now rewrite !app_nil_r.
  - cbn [Archive.archive_submodules]. unfold Py.bind, Archive.write_tar at 1.
    rewrite writes_succeed.
    destruct (IH (acc ++ [Archive.submodule_archive_file_path archive_name
                            build_dir s])%list
                {| Shell.paths :=
                     {[Archive.submodule_archive_file_path archive_name
                         build_dir s]} ∪ Shell.paths w;
                   Shell.trace :=
                     Shell.trace w
                     ++ [submodule_tar archive_name build_dir s] |})
      as (w' & Hrun & Htrace).
    exists w'. split.
    + etransitivity; [exact Hrun|]. simpl. now rewrite <- app_assoc.
    + rewrite Htrace. simpl. now rewrite <- app_assoc.
Qed.

(** Concatenations that all succeed. *)
Lemma concatenations_succeed (tar : string) (l : list string)
  (w : Shell.World) :
  (forall (p : string) (ps : gset string),
      p ∈ l ->
      snd (run_effect (Archive.concatenate_command tar p) None ps) = true) ->
  exists w',
    Py.for_each l
      (fun p => Shell.run_command run_effect
                  (Archive.concatenate_command tar p) None) w
    = (w', Ok tt)
    /\ Shell.trace w'
       = (Shell.trace w
          ++ List.map
               (fun p => Shell.Command (Archive.concatenate_command tar p) None)
               l)%list.
Proof.
  revert w. induction l as [|p l IH]; intros w Hok.
  - exists w. simpl. unfold Py.ret. now rewrite app_nil_r.
  - cbn [Py.for_each]. unfold Py.bind. rewrite run_command_eq.
    rewrite Hok by apply list_elem_of_here.
    destruct (IH {| Shell.paths :=
                      fst (run_effect (Archive.concatenate_command tar p) None
                             (Shell.paths w));
                    Shell.trace :=
                      Shell.trace w
                      ++ [Shell.Command (Archive.concatenate_command tar p)
                            None] |})
      as (w' & Hrun & Htrace).
    { intros q ps Hq. apply Hok. now apply list_elem_of_further. }
    exists w'. split; [exact Hrun|].
    rewrite Htrace. simpl. now rewrite <- app_assoc.
Qed.

(** Concatenations that meet a failing command stop there. *)
Lemma concatenations_stop (tar : string) (before after : list string)
  (failing : string) (w : Shell.World) :
  (forall (p : string) (ps : gset string),
      p ∈ before ->
      snd (run_effect (Archive.concatenate_command tar p) None ps) = true) ->
  (forall ps : gset string,
      snd (run_effect (Archive.concatenate_command tar failing) None ps)
      = false) ->
  exists w',
    Py.for_each (before ++ failing :: after)
      (fun p => Shell.run_command run_effect
                  (Archive.concatenate_command tar p) None) w
    = (w', Raise (ExecutionError (Archive.concatenate_command tar failing)))
    /\ Shell.trace w'
       = (Shell.trace w
          ++ List.map
               (fun p => Shell.Command (Archive.concatenate_command tar p) None)
               (before ++ [failing]))%list.
Proof.
  revert w. induction before as [|p before IH]; intros w Hok Hfail.
  - eexists. split.
    + cbn [app Py.for_each]. unfold Py.bind. rewrite run_command_eq.
      rewrite Hfail. reflexivity.
    + reflexivity.
  - cbn [app Py.for_each]. unfold Py.bind. rewrite run_command_eq.
    rewrite Hok by apply list_elem_of_here.
    destruct (IH {| Shell.paths :=
                      fst (run_effect (Archive.concatenate_command tar p) None
                             (Shell.paths w));
                    Shell.trace :=
                      Shell.trace w
                      ++ [Shell.Command (Archive.concatenate_command tar p)
                            None] |})
      as (w' & Hrun & Htrace); [|exact Hfail|].
    { intros q ps Hq. apply Hok. now apply list_elem_of_further. }
    exists w'. split; [exact Hrun|].
    rewrite Htrace. simpl. now rewrite <- app_assoc.
Qed.

(** Up to the commands: the tar file of the repository, then those of
    the submodules. *)
Lemma archive_eq (host : Host) (self : Repo) (archive_name build_dir : string)
  (w : Shell.World) :
  let tar := os_path.join build_dir (archive_name ++ ".tar") in
  let subs := submodules_at host (head self) in
  exists w1,
    Shell.trace w1
    = (Shell.trace w
       ++ Shell.WriteTar tar (archive_name ++ "/")%string None
          :: List.map (submodule_tar archive_name build_dir) subs)%list
    /\ Archive.archive host run_effect archive_error self archive_name
         build_dir w
       = Py.bind
           (Py.for_each
              (List.map
                 (Archive.submodule_archive_file_path archive_name build_dir)
                 subs)
              (fun p => Shell.run_command run_effect
                          (Archive.concatenate_command tar p) None))
           (fun _ =>
              Py.bind
                (Shell.run_command run_effect ("gzip --fast " ++ tar) None)
                (fun _ => Py.ret (tar ++ ".gz")))
           w1.
Proof.
  intros tar subs.
  unfold Archive.archive. fold tar. fold subs.
  unfold Py.bind at 1, Archive.write_tar at 1. rewrite writes_succeed.
  destruct (archive_submodules_eq archive_name build_dir subs []
              {| Shell.paths := {[tar]} ∪ Shell.paths w;
                 Shell.trace :=
                   Shell.trace w
                   ++ [Shell.WriteTar tar (archive_name ++ "/") None] |})
    as (w1 & Hrun & Htrace).
  exists w1. split.
  - rewrite Htrace. simpl. now rewrite <- app_assoc.
  - unfold Py.bind at 1. rewrite Hrun. cbn [app].
    destruct (List.map _ subs); reflexivity.
Qed.

End Archiving.

(** When every tar file can be written and every command succeeds,
    [archive] returns the path of the compressed file,
    [build_dir/archive_name.tar.gz], after having written the tar file of
    the repository and then one per submodule, appended each of these to
    the first in enumeration order, and compressed the result last. *)
Theorem archive_success (host : Host)
  (run_effect : string -> option string -> gset string -> gset string * bool)
  (archive_error : string -> option string -> option exn)
  (self : Repo) (archive_name build_dir : string) (w : Shell.World) :
  (forall (file : string) (source : option string),
      archive_error file source = None) ->
  (forall (cmd : string) (cwd : option string) (ps : gset string),
      snd (run_effect cmd cwd ps) = true) ->
  let tar := os_path.join build_dir (archive_name ++ ".tar") in
  let subs := submodules_at host (head self) in
  exists w',
    Archive.archive host run_effect archive_error self archive_name build_dir w
    = (w', Ok (tar ++ ".gz"))
    /\ Shell.trace w'
       = (Shell.trace w
          ++ Shell.WriteTar tar (archive_name ++ "/")%string None
             :: List.map (submodule_tar archive_name build_dir) subs
          ++ List.map (submodule_concatenation archive_name build_dir) subs
          ++ [Shell.Command ("gzip --fast " ++ tar)%string None])%list.
Proof.
  intros Hwrites Hcommands tar subs.
  destruct (archive_eq run_effect archive_error Hwrites host self archive_name
              build_dir w) as (w1 & Htrace1 & ->).
  fold tar subs in Htrace1 |- *.
  destruct (concatenations_succeed run_effect tar
              (List.map
                 (Archive.submodule_archive_file_path archive_name build_dir)
                 subs) w1)
    as (w2 & Hrun & Htrace2).
  { intros p ps _. apply Hcommands. }
  unfold Py.bind at 1. rewrite Hrun.
  unfold Py.bind, Py.ret. rewrite run_command_eq, Hcommands.
  eexists. split; [reflexivity|].
  cbn [Shell.trace]. rewrite Htrace2, Htrace1, List.map_map.
  rewrite <- !app_assoc. reflexivity.
Qed.

Lemma archive_success_witness :
  exists w',
    Archive.archive Scenario.submodule_fails Scenario.all_succeed
      Scenario.no_archive_error Sample.repo "example-1.0" "/build"
      Scenario.bare
    = (w', Ok "/build/example-1.0.tar.gz")
    /\ Shell.trace w'
       = [Shell.WriteTar "/build/example-1.0.tar" "example-1.0/" None;
          Shell.WriteTar "/build/example-1.0-vendor_lib.tar"
            "example-1.0/vendor/lib/" (Some "vendor/lib");
          Shell.WriteTar "/build/example-1.0-vendor_broken.tar"
            "example-1.0/vendor/broken/" (Some "vendor/broken");
          Shell.WriteTar "/build/example-1.0-tools.tar"
            "example-1.0/tools/" (Some "tools");
          Shell.Command
            "tar --concatenate --file /build/example-1.0.tar /build/example-1.0-vendor_lib.tar"
            None;
          Shell.Command
            "tar --concatenate --file /build/example-1.0.tar /build/example-1.0-vendor_broken.tar"
            None;
          Shell.Command
            "tar --concatenate --file /build/example-1.0.tar /build/example-1.0-tools.tar"
            None;
          Shell.Command "gzip --fast /build/example-1.0.tar" None].
Proof.
  apply (archive_success Scenario.submodule_fails Scenario.all_succeed
           Scenario.no_archive_error Sample.repo "example-1.0" "/build"
           Scenario.bare).
  - reflexivity.
  - reflexivity.
Defined.

(** When the command that appends the tar file of one submodule fails,
    [archive] ends in the execution error of that command: the tar files
    of the submodules after it are not appended and nothing is
    compressed. *)
Theorem archive_concatenation_failure (host : Host)
  (run_effect : string -> option string -> gset string -> gset string * bool)
  (archive_error : string -> option string -> option exn)
  (self : Repo) (archive_name build_dir : string) (w : Shell.World)
  (before after : list Submodule) (failing : Submodule) :
  (forall (file : string) (source : option string),
      archive_error file source = None) ->
  let tar := os_path.join build_dir (archive_name ++ ".tar") in
  let tar_of := Archive.submodule_archive_file_path archive_name build_dir in
  submodules_at host (head self) = (before ++ failing :: after)%list ->
  (forall (s : Submodule) (ps : gset string),
      s ∈ before ->
      snd (run_effect (Archive.concatenate_command tar (tar_of s)) None ps)
      = true) ->
  (forall ps : gset string,
      snd (run_effect (Archive.concatenate_command tar (tar_of failing))
             None ps)
      = false) ->
  exists w',
    Archive.archive host run_effect archive_error self archive_name build_dir w
    = (w', Raise (ExecutionError
                    (Archive.concatenate_command tar (tar_of failing))))
    /\ Shell.trace w'
       = (Shell.trace w
          ++ Shell.WriteTar tar (archive_name ++ "/")%string None
             :: List.map (submodule_tar archive_name build_dir)
                  (before ++ failing :: after)
          ++ List.map (submodule_concatenation archive_name build_dir)
               (before ++ [failing]))%list.
Proof.
  intros Hwrites tar tar_of Hsubs Hbefore Hfailing.
  destruct (archive_eq run_effect archive_error Hwrites host self archive_name
              build_dir w) as (w1 & Htrace1 & ->).
  fold tar in Htrace1 |- *. rewrite Hsubs in Htrace1 |- *.
  rewrite List.map_app. cbn [List.map]. fold tar_of.
  destruct (concatenations_stop run_effect tar (List.map tar_of before)
              (List.map tar_of after) (tar_of failing) w1)
    as (w2 & Hrun & Htrace2).
  { intros p ps Hp.
    apply list_elem_of_In, in_map_iff in Hp as (s & <- & Hs).
    apply Hbefore. now apply list_elem_of_In. }
  { exact Hfailing. }
  unfold Py.bind at 1. rewrite Hrun.
  exists w2. split; [reflexivity|].
  rewrite Htrace2, Htrace1.
  rewrite <- !app_assoc. cbn [app]. do 2 f_equal. f_equal.
  rewrite !List.map_app, List.map_map. reflexivity.
Qed.

Lemma archive_concatenation_failure_witness :
  exists w',
    Archive.archive Scenario.submodule_fails Scenario.concatenate_fails
      Scenario.no_archive_error Sample.repo "example-1.0" "/build"
      Scenario.bare
    = (w',
       Raise (ExecutionError
                "tar --concatenate --file /build/example-1.0.tar /build/example-1.0-vendor_broken.tar"))
    /\ Shell.trace w'
       = [Shell.WriteTar "/build/example-1.0.tar" "example-1.0/" None;
          Shell.WriteTar "/build/example-1.0-vendor_lib.tar"
            "example-1.0/vendor/lib/" (Some "vendor/lib");
          Shell.WriteTar "/build/example-1.0-vendor_broken.tar"
            "example-1.0/vendor/broken/" (Some "vendor/broken");
          Shell.WriteTar "/build/example-1.0-tools.tar"
            "example-1.0/tools/" (Some "tools");
          Shell.Command
            "tar --concatenate --file /build/example-1.0.tar /build/example-1.0-vendor_lib.tar"
            None;
          Shell.Command
            "tar --concatenate --file /build/example-1.0.tar /build/example-1.0-vendor_broken.tar"
            None].
Proof.
  apply (archive_concatenation_failure Scenario.submodule_fails
           Scenario.concatenate_fails Scenario.no_archive_error Sample.repo
           "example-1.0" "/build" Scenario.bare
           [Sample.vendor_lib] [Scenario.tools] Scenario.broken).
  - reflexivity.
  - reflexivity.
  - intros s ps Hs. apply list_elem_of_singleton in Hs. now subst s.
  - reflexivity.
Defined.

(** ** The name the factory infers from the URL *)

Section PathStrings.

Lemma append_cons (c : ascii) (s t : string) :
  String c s ++ t = String c (s ++ t).
Proof. reflexivity. Qed.

Lemma append_empty (t : string) : "" ++ t = t.
Proof. reflexivity. Qed.

Lemma length_append (s t : string) :
  String.length (s ++ t) = (String.length s + String.length t)%nat.
Proof.
  induction s as [|c s IH]; [reflexivity|].
  rewrite append_cons. simpl. now rewrite IH.
Qed.

Lemma append_assoc (s t u : string) : (s ++ t) ++ u = s ++ t ++ u.
Proof.
  induction s as [|c s IH]; [reflexivity|].
  rewrite !append_cons. now rewrite IH.
Qed.

Lemma rfind_range (c : ascii) (s : string) :
  -1 <= os_path.rfind c s < Z.of_nat (String.length s).
Proof.
  induction s as [|a s IH]; simpl; [lia|].
  destruct (Z.leb_spec 0 (os_path.rfind c s)); [lia|].
  destruct (Ascii.eqb a c); lia.
Qed.

(** The last occurrence in a concatenation lies in the second part when
    there is one there. *)
Lemma rfind_append (c : ascii) (s t : string) :
  os_path.rfind c (s ++ t)
  = if 0 <=? os_path.rfind c t
    then Z.of_nat (String.length s) + os_path.rfind c t
    else os_path.rfind c s.
Proof.
  induction s as [|a s IH].
  - rewrite append_empty. simpl.
    destruct (Z.leb_spec 0 (os_path.rfind c t)); [lia|].
    pose proof (rfind_range c t). lia.
  - rewrite append_cons. cbn [os_path.rfind]. rewrite IH.
    destruct (Z.leb_spec 0 (os_path.rfind c t)) as [Ht|Ht].
    + destruct (Z.leb_spec 0 (Z.of_nat (String.length s) + os_path.rfind c t));
        [|lia].
      cbn [String.length]. lia.
    + reflexivity.
Qed.

Lemma rfind_here (c : ascii) (s : string) :
  os_path.rfind c s = -1 -> os_path.rfind c (String c s) = 0.
Proof.
  intros H. cbn [os_path.rfind]. rewrite H. simpl.
  now rewrite Ascii.eqb_refl.
Qed.

Lemma substring_prefix (s t : string) :
  String.substring 0 (String.length s) (s ++ t) = s.
Proof.
  induction s as [|c s IH].
  - now destruct t.
  - rewrite append_cons. simpl. now rewrite IH.
Qed.

Lemma substring_skip (s t : string) (n : nat) :
  String.substring (String.length s) n (s ++ t) = String.substring 0 n t.
Proof.
  induction s as [|c s IH]; [reflexivity|].
  rewrite append_cons. simpl. exact IH.
Qed.

Lemma substring_all (s : string) :
  String.substring 0 (String.length s) s = s.
Proof.
  induction s as [|c s IH]; [reflexivity|]. simpl. now rewrite IH.
Qed.

(** The last component of a path. *)
Lemma basename_last_component (dir base : string) :
  os_path.rfind "/" base = -1 ->
  os_path.basename (dir ++ "/" ++ base) = base.
Proof.
  intros Hbase.
  assert (os_path.rfind "/" (dir ++ "/" ++ base)
          = Z.of_nat (String.length dir)) as Hsep.
  { rewrite rfind_append.
    change ("/" ++ base) with (String "/" base).
    rewrite (rfind_here "/" base Hbase). simpl. lia. }
  unfold os_path.basename, os_path.slice_from. rewrite Hsep.
  replace (Z.to_nat (Z.of_nat (String.length dir) + 1))
    with (String.length (dir ++ "/")) by (rewrite length_append; simpl; lia).
  rewrite <- (append_assoc dir "/" base).
  rewrite (length_append (dir ++ "/") base).
  replace (String.length (dir ++ "/") + String.length base
           - String.length (dir ++ "/"))%nat
    with (String.length base) by lia.
  rewrite substring_skip. apply substring_all.
Qed.

End PathStrings.

Section NameInference.

(** A path that ends in [base.ext]: the extension is split off at the
    last dot. *)
Lemma splitext_extension (dir base ext : string) :
  os_path.rfind "/" base = -1 ->
  os_path.all_dots base = false ->
  os_path.rfind "/" ext = -1 ->
  os_path.rfind "." ext = -1 ->
  os_path.splitext (dir ++ "/" ++ base ++ "." ++ ext)
  = (dir ++ "/" ++ base, "." ++ ext).
Proof.
  intros Hbase Hdots Hext_sep Hext_dot.
  pose (stem := dir ++ "/" ++ base).
  pose (suffix := "." ++ ext).
  assert (dir ++ "/" ++ base ++ "." ++ ext = stem ++ suffix) as Hp.
  { unfold stem, suffix. now rewrite !append_assoc. }
  assert (os_path.rfind "/" suffix = -1) as Hsuffix_sep.
  { unfold suffix. change ("." ++ ext) with (String "." ext).
    cbn [os_path.rfind]. now rewrite Hext_sep. }
  assert (os_path.rfind "." suffix = 0) as Hsuffix_dot.
  { unfold suffix. change ("." ++ ext) with (String "." ext).
    now apply rfind_here. }
  assert (os_path.rfind "/" stem = Z.of_nat (String.length dir)) as Hstem_sep.
  { unfold stem. rewrite rfind_append.
    change ("/" ++ base) with (String "/" base).
    rewrite (rfind_here "/" base Hbase). simpl. lia. }
  assert (String.length stem
          = (String.length (dir ++ "/") + String.length base)%nat) as Hlen.
  { unfold stem. rewrite <- append_assoc. apply length_append. }
  assert (String.length (dir ++ "/") = (String.length dir + 1)%nat) as Hlen_dir.
  { rewrite length_append. reflexivity. }
  rewrite Hp. unfold os_path.splitext.
  rewrite (rfind_append "/" stem suffix), Hsuffix_sep, Hstem_sep.
  rewrite (rfind_append "." stem suffix), Hsuffix_dot.
  change (0 <=? -1) with false. change (0 <=? 0) with true. cbv iota.
  assert ((Z.of_nat (String.length dir) <? Z.of_nat (String.length stem) + 0)
          = true) as ->.
  { apply Z.ltb_lt. lia. }
  replace (Z.to_nat (Z.of_nat (String.length dir) + 1))
    with (String.length (dir ++ "/")) by lia.
  replace (Z.to_nat (Z.of_nat (String.length stem) + 0
                     - (Z.of_nat (String.length dir) + 1)))
    with (String.length base) by lia.
  assert (stem ++ suffix = (dir ++ "/") ++ base ++ suffix) as Hsplit.
  { unfold stem. now rewrite !append_assoc. }
  rewrite Hsplit at 1. rewrite substring_skip, substring_prefix, Hdots.
  cbn [andb negb]. unfold os_path.slice_to, os_path.slice_from.
  replace (Z.to_nat (Z.of_nat (String.length stem) + 0))
    with (String.length stem) by lia.
  rewrite substring_prefix, substring_skip, length_append.
  replace (String.length stem + String.length suffix - String.length stem)%nat
    with (String.length suffix) by lia.
  now rewrite substring_all.
Qed.

(** A path whose last component has no dot: nothing is split off. *)
Lemma splitext_plain (dir base : string) :
  os_path.rfind "/" base = -1 ->
  os_path.rfind "." base = -1 ->
  os_path.splitext (dir ++ "/" ++ base) = (dir ++ "/" ++ base, "").
Proof.
  intros Hsep Hdot. unfold os_path.splitext.
  assert (os_path.rfind "/" (dir ++ "/" ++ base)
          = Z.of_nat (String.length dir)) as ->.
  { rewrite rfind_append.
    change ("/" ++ base) with (String "/" base).
    rewrite (rfind_here "/" base Hsep). simpl. lia. }
  assert (os_path.rfind "." (dir ++ "/" ++ base) = os_path.rfind "." dir) as ->.
  { rewrite rfind_append.
    change ("/" ++ base) with (String "/" base).
    cbn [os_path.rfind]. now rewrite Hdot. }
  assert ((Z.of_nat (String.length dir) <? os_path.rfind "." dir) = false)
    as ->.
  { apply Z.ltb_ge. pose proof (rfind_range "." dir). lia. }
  reflexivity.
Qed.

End NameInference.

(** Without a [name], or with an empty one, the factory names the
    repository after the last component of the path of the URL, with the
    extension taken off: a path that ends in [/base.ext] gives [base].
    The extension starts at the last dot, so [base] may itself contain
    dots, as long as it does not consist of dots only. *)
Theorem repository_name_from_url (host : Host) (remote_repo_url : string)
  (dir base ext : string) :
  urlparse_path host remote_repo_url = dir ++ "/" ++ base ++ "." ++ ext ->
  os_path.rfind "/" base = -1 ->
  os_path.all_dots base = false ->
  os_path.rfind "/" ext = -1 ->
  os_path.rfind "." ext = -1 ->
  Factory.repository_name host remote_repo_url None = base
  /\ Factory.repository_name host remote_repo_url (Some "") = base.
Proof.
  intros Hpath Hbase Hdots Hext_sep Hext_dot.
  unfold Factory.repository_name. simpl os_path.is_empty. cbv iota.
  rewrite Hpath, splitext_extension by assumption.
  cbn [fst]. split; now apply basename_last_component.
Qed.

Lemma repository_name_from_url_witness :
  Factory.repository_name Sample.host "https://host/team/my.project.git" None
  = "my.project"
  /\ Factory.repository_name Sample.host "https://host/team/my.project.git"
       (Some "")
     = "my.project".
Proof.
  apply (repository_name_from_url Sample.host
           "https://host/team/my.project.git" "/team" "my.project" "git").
  - reflexivity.
  - reflexivity.
  - reflexivity.
  - reflexivity.
  - reflexivity.
Defined.

(** A path of the URL whose last component has no dot gives that
    component as the name, dots in the directories before it
    notwithstanding. *)
Theorem repository_name_without_extension (host : Host)
  (remote_repo_url : string) (dir base : string) :
  urlparse_path host remote_repo_url = dir ++ "/" ++ base ->
  os_path.rfind "/" base = -1 ->
  os_path.rfind "." base = -1 ->
  Factory.repository_name host remote_repo_url None = base.
Proof.
  intros Hpath Hsep Hdot.
  unfold Factory.repository_name.
  rewrite Hpath, splitext_plain by assumption.
  cbn [fst]. now apply basename_last_component.
Qed.

Lemma repository_name_without_extension_witness :
  Factory.repository_name Sample.host "https://host/v1.2/example" None
  = "example".
Proof.
  apply (repository_name_without_extension Sample.host
           "https://host/v1.2/example" "/v1.2" "example").
  - reflexivity.
  - reflexivity.
  - reflexivity.
Defined.

(** ** The lock of the chroot initialiser, on every execution *)

(** On every execution of [initialize] the lock file is opened and locked
    before the first command runs; the second command runs only after the
    first one succeeded; the call returns normally exactly when both
    commands succeed, and that is exactly when the lock has been
    released on return. *)
Theorem initialize_runs_under_lock (CONF : Mock.Conf)
  (command_ok : string -> bool) (self : Mock.Mock) (w : Mock.World) :
  let path := Mock.LOCK_FILE_PATH CONF in
  let scrub :=
    Mock.str_join " " (Mock.common_mock_args self ++ ["--scrub all"]) in
  let init :=
    Mock.str_join " " (Mock.common_mock_args self ++ ["--init"]) in
  let out := Mock.initialize CONF command_ok self w in
  (exists rest : list Mock.event,
      Mock.trace (fst out)
      = (Mock.trace w
         ++ Mock.Open path :: Mock.LockEx path :: Mock.Run scrub :: rest)%list
      /\ (Mock.Run init ∈ rest <-> command_ok scrub = true))
  /\ (snd out = Ok tt <-> command_ok scrub = true /\ command_ok init = true)
  /\ (Mock.lock_held (fst out) = false <-> snd out = Ok tt).
Proof.
  intros path scrub init out. subst out.
  rewrite initialize_eq. fold path scrub init.
  destruct (command_ok scrub); [destruct (command_ok init)|]; cbn [fst snd].
  - split; [|split].
    + eexists. split; [reflexivity|]. split; [reflexivity|].
      intros _. apply list_elem_of_here.
    + split; [now split|reflexivity].
    + split; reflexivity.
  - split; [|split].
    + eexists. split; [reflexivity|]. split; [reflexivity|].
      intros _. apply list_elem_of_here.
    + split; [discriminate|now intros [_ ?]].
    + split; discriminate.
  - split; [|split].
    + exists []. split; [reflexivity|]. split; [|discriminate].
      intros H. now apply elem_of_nil in H.
    + split; [discriminate|now intros [? _]].
    + split; discriminate.
Qed.
